(** * tomopy: flat-field normalisation and rotation-centre search

    A shallow embedding of
    - [tomopy/algorithms/preprocess/normalize.py] (function [normalize]) and
    - [tomopy/algorithms/recon/optimize_center.py] (functions
      [optimize_center] and [_costFunc]),
    together with the properties the specification states about them.

    Arrays are nested lists ([volume] = projections of rows of pixels), array
    elements are kept abstract behind the interface [Scalar] (the numpy
    dtype), exceptions are values of [exn], and the in-place updates of the
    shared array and of the reconstructor object are explicit state. *)

From stdpp Require Import base option list.
From Stdlib Require Import ZArith QArith Qround Qabs Lia Lqa Uint63 PrimFloat.
From Stdlib Require Import SpecFloat FloatOps FloatAxioms.

Local Open Scope Z_scope.

(** ** Array elements *)

(** The operations the two source files apply to array elements.  [gtb],
    [ltb], [geb], [leb] are numpy's [>], [<], [>=], [<=]; [fmin], [fmax] are the
    binary steps of [np.min], [np.max]; [float32] is the cast
    [astype('float32')]; [tiny] is the literal [1e-12]. *)
Class Scalar (F : Type) := {
  zero : F;
  two : F;
  half : F;
  tiny : F;
  of_Z : Z -> F;
  add : F -> F -> F;
  sub : F -> F -> F;
  mul : F -> F -> F;
  div : F -> F -> F;
  neg : F -> F;
  gtb : F -> F -> bool;
  ltb : F -> F -> bool;
  geb : F -> F -> bool;
  leb : F -> F -> bool;
  fmin : F -> F -> F;
  fmax : F -> F -> F;
  float32 : F -> F
}.

(** What the order of ordinary (non-NaN) numbers satisfies. *)
Class ScalarOrder (F : Type) `{Scalar F} : Prop := {
  leb_gtb : forall x y : F, leb x y = negb (gtb x y);
  geb_ltb : forall x y : F, geb x y = negb (ltb x y);
  gtb_irrefl : forall x : F, gtb x x = false
}.

(** Exact rational arithmetic, every result in lowest terms. *)
#[export] Instance Scalar_Q : Scalar Q := {|
  zero := 0%Q;
  two := 2%Q;
  half := (1 # 2)%Q;
  tiny := (1 # 1000000000000)%Q;
  of_Z := inject_Z;
  add := fun x y => Qred (x + y);
  sub := fun x y => Qred (x - y);
  mul := fun x y => Qred (x * y);
  div := fun x y => Qred (x / y);
  neg := fun x => Qred (- x);
  gtb := fun x y => negb (Qle_bool x y);
  ltb := fun x y => negb (Qle_bool y x);
  geb := fun x y => Qle_bool y x;
  leb := fun x y => Qle_bool x y;
  fmin := fun x y => if Qle_bool x y then x else y;
  fmax := fun x y => if Qle_bool x y then y else x;
  float32 := fun x => x
|}.

#[export] Instance ScalarOrder_Q : ScalarOrder Q.
Proof.
  split; simpl; intros.
  - by rewrite negb_involutive.
  - by rewrite negb_involutive.
  - apply negb_false_iff, Qle_bool_iff, Qle_refl.
Qed.

(** IEEE binary64 arithmetic (the kernel's floats); a NaN is propagated by
    [fmin] and [fmax] as [np.min] and [np.max] do.  [float32] is left as the
    identity: the kernel has no binary32. *)
Definition float_of_Z (z : Z) : float :=
  match z with
  | Z0 => 0%float
  | Zpos _ => PrimFloat.of_uint63 (Uint63.of_Z z)
  | Zneg _ => PrimFloat.opp (PrimFloat.of_uint63 (Uint63.of_Z (- z)))
  end.

Definition float_is_nan (x : float) : bool := negb (PrimFloat.eqb x x).

#[export] Instance Scalar_float : Scalar float := {|
  zero := 0%float;
  two := 2%float;
  half := 0.5%float;
  tiny := 0x1.19799812dea11p-40%float;   (* the binary64 nearest to 1e-12 *)
  of_Z := float_of_Z;
  add := PrimFloat.add;
  sub := PrimFloat.sub;
  mul := PrimFloat.mul;
  div := PrimFloat.div;
  neg := PrimFloat.opp;
  gtb := fun x y => PrimFloat.ltb y x;
  ltb := PrimFloat.ltb;
  geb := fun x y => PrimFloat.leb y x;
  leb := PrimFloat.leb;
  fmin := fun x y =>
    if float_is_nan x then x else if float_is_nan y then y
    else if PrimFloat.ltb y x then y else x;
  fmax := fun x y =>
    if float_is_nan x then x else if float_is_nan y then y
    else if PrimFloat.ltb x y then y else x;
  float32 := fun x => x
|}.

(** ** Exceptions and results *)

Inductive exn : Type :=
  | IndexError        (* index out of range, boolean mask of the wrong shape *)
  | ValueError        (* operands that do not broadcast, [np.min] of nothing *)
  | ExternalError.    (* raised by the reconstructor or a library routine *)

Inductive outcome (A : Type) : Type :=
  | Returned (a : A)
  | Raised (e : exn).
Arguments Returned {A} a.
Arguments Raised {A} e.

(** ** Arrays *)

(** A 2-D array: rows of pixels.  A 3-D array: [projections, slices, pixels]. *)
Abbreviation frame F := (list (list F)) (only parsing).
Abbreviation volume F := (list (list (list F))) (only parsing).

Section Arrays.
Context {F : Type} `{Scalar F}.

Definition shape {A} (a : list (list A)) : list nat := length <$> a.

Definition cell (data : volume F) (m r k : nat) : option F :=
  p ← data !! m; row ← p !! r; row !! k.

Definition pixel {A} (a : list (list A)) (r k : nat) : option A :=
  row ← a !! r; row !! k.

(** Elementwise binary operation on two 2-D arrays of one shape; operands
    of different shapes raise (numpy's broadcasting of arrays of lower rank
    or unit extent is outside this model: the calibration frames have the
    shape of one projection). *)
Definition elementwise (f : F -> F -> F) (a b : frame F) : outcome (frame F) :=
  if bool_decide (shape a = shape b)
  then Returned (zip_with (zip_with f) a b)
  else Raised ValueError.

(** numpy's index normalisation on an axis of length [n]: [-n <= m < n],
    negative indices count from the end. *)
Definition resolve_index (n : nat) (m : Z) : option nat :=
  if bool_decide (0 <= m < Z.of_nat n) then Some (Z.to_nat m)
  else if bool_decide (- Z.of_nat n <= m < 0) then Some (Z.to_nat (m + Z.of_nat n))
  else None.

(** [data[data > cutoff] = cutoff] on the whole 3-D array. *)
Definition clamp (cutoff v : F) : F := if gtb v cutoff then cutoff else v.
Definition clamp_all (cutoff : F) (data : volume F) : volume F :=
  (λ p : frame F, (λ row : list F, clamp cutoff <$> row) <$> p) <$> data.

End Arrays.

(** ** normalize.py *)

Section Normalize.
Context {F : Type} `{Scalar F}.

(** [np.divide(data[m,:,:] - data_dark, data_white - data_dark)]: the
    operands are evaluated left to right. *)
Definition normalize_projection (data_white data_dark proj : frame F)
  : outcome (frame F) :=
  match elementwise sub proj data_dark with
  | Raised e => Raised e
  | Returned num =>
    match elementwise sub data_white data_dark with
    | Raised e => Raised e
    | Returned den => elementwise div num den
    end
  end.

(** The loop [for m in ind: data[m,:,:] = ...] on the shared array.  The
    result carries the array as the loop left it, also when it raises. *)
Fixpoint normalize_loop (data_white data_dark : frame F) (ind : list Z)
    (data : volume F) : volume F * outcome unit :=
  match ind with
  | [] => (data, Returned tt)
  | m :: ind' =>
    match resolve_index (length data) m with
    | None => (data, Raised IndexError)
    | Some i =>
      match data !! i with
      | None => (data, Raised IndexError)
      | Some proj =>
        match normalize_projection data_white data_dark proj with
        | Raised e => (data, Raised e)
        | Returned q =>
          normalize_loop data_white data_dark ind' (<[i:=q]> data)
        end
      end
    end
  end.

(** Modelled from the spec: [mp.tonumpyarray(mp.shared_arr, dshape)] of
    [tomopy.tools.multiprocess_shared], which is not among the sources.  The
    specification has the shared array "reinterpretable by every worker as a
    3-D view of shape [num_projections, rows, cols]"; the model keeps the
    shared array in the form of that view, so the view is the array itself
    and a write to the view is a write to the shared array. *)
Definition tonumpyarray (shared_arr : volume F) (dshape : nat * nat * nat)
  : volume F := shared_arr.

(** [normalize(args)], as a transformer of the shared array [mp.shared_arr]. *)
Definition normalize
    (args : list Z * (nat * nat * nat) * (frame F * frame F * option F))
    (shared_arr : volume F) : volume F * outcome unit :=
  (* Arguments passed by multi-processing wrapper *)
  let '(ind, dshape, inputs) := args in
  (* Function inputs *)
  let data := tonumpyarray shared_arr dshape in
  let '(data_white, data_dark, cutoff) := inputs in
  match normalize_loop data_white data_dark ind data with
  | (data1, Raised e) => (data1, Raised e)
  | (data1, Returned _) =>
    match cutoff with
    | None => (data1, Returned tt)
    | Some c => (clamp_all c data1, Returned tt)
    end
  end.

(** The workers of the pool run one after another on the shared array, each
    with its own partition and the same [dshape] and [inputs]. *)
Fixpoint normalize_workers (parts : list (list Z)) (dshape : nat * nat * nat)
    (inputs : frame F * frame F * option F) (shared_arr : volume F)
  : volume F * outcome unit :=
  match parts with
  | [] => (shared_arr, Returned tt)
  | ind :: parts' =>
    match normalize (ind, dshape, inputs) shared_arr with
    | (data1, Raised e) => (data1, Raised e)
    | (data1, Returned _) => normalize_workers parts' dshape inputs data1
    end
  end.

(** The value the loop body stores for one projection, the quotient stored
    at pixel [(r, k)] for the raw value [x], the clamp when there is one, and
    the shape the projections of a volume are expected to have. *)
Definition normalized (data_white data_dark proj : frame F) : frame F :=
  zip_with (zip_with div)
    (zip_with (zip_with sub) proj data_dark)
    (zip_with (zip_with sub) data_white data_dark).

Definition quotient_at (data_white data_dark : frame F) (r k : nat) (x : F)
  : option F :=
  d ← pixel data_dark r k; w ← pixel data_white r k;
  Some (div (sub x d) (sub w d)).

Definition clamp_opt (cutoff : option F) (v : F) : F :=
  match cutoff with None => v | Some c => clamp c v end.

Definition projections_ok (data_white : frame F) (data : volume F) : Prop :=
  Forall (λ p : frame F, shape p = shape data_white) data.

End Normalize.


(** ** optimize_center.py *)

(** What the run of [optimize_center] shows to the outside: the calls of the
    reconstructor and of [np.histogram] with their arguments, the two
    [print] statements, and each value the objective hands back to the
    minimizer. *)
Inductive event (F : Type) : Type :=
  | Reconstruct (center : F) (slice_no : Z)
  | Trying (center : F)
  | Histogram (bins : nat) (lo hi : F)
  | Objective (center score : F)
  | Calculated (x : F).
Arguments Reconstruct {F} center slice_no.
Arguments Trying {F} center.
Arguments Histogram {F} bins lo hi.
Arguments Objective {F} center score.
Arguments Calculated {F} x.

(** The object of the external class [Gridrec]: its reconstructed images
    [data_recon] (one image per reconstructed slice) and whatever else it
    keeps, of type [G]. *)
Record Gridrec (F G : Type) : Type := {
  gridrec_state : G;
  data_recon : volume F
}.
Arguments gridrec_state {F G} g.
Arguments data_recon {F G} g.

Definition set_data_recon {F G : Type} (r : Gridrec F G) (a : volume F)
  : Gridrec F G :=
  {| gridrec_state := gridrec_state r; data_recon := a |}.

(** The local object [recon] and the output so far. *)
Record world (F G : Type) : Type := {
  recon : Gridrec F G;
  trace : list (event F)
}.
Arguments recon {F G} w.
Arguments trace {F G} w.

(** [scipy.optimize.OptimizeResult], the fields of interest. *)
Record OptimizeResult (F : Type) : Type := {
  res_x : F;
  res_fun : F;
  res_success : bool
}.
Arguments res_x {F} o.
Arguments res_fun {F} o.
Arguments res_success {F} o.

(** A derivative-free minimizer seen from its objective: it either stops
    with a result or asks for the objective at a point and goes on from the
    value.  Every run is finite: the routine has an iteration and an
    evaluation budget. *)
Inductive minimizer (F : Type) : Type :=
  | Finish (res : OptimizeResult F)
  | Evaluate (x : F) (k : F -> minimizer F).
Arguments Finish {F} res.
Arguments Evaluate {F} x k.

(** State and exceptions. *)
Definition M (F G A : Type) : Type := world F G -> world F G * outcome A.

Section Monad.
Context {F G : Type}.

Definition ret {A} (a : A) : M F G A := λ w, (w, Returned a).
Definition bind {A B} (m : M F G A) (f : A -> M F G B) : M F G B :=
  λ w, match m w with
       | (w1, Returned a) => f a w1
       | (w1, Raised e) => (w1, Raised e)
       end.
Definition lift {A} (o : outcome A) : M F G A := λ w, (w, o).
Definition emit (e : event F) : M F G unit :=
  λ w, ({| recon := recon w; trace := trace w ++ [e] |}, Returned tt).
Definition get_recon : M F G (Gridrec F G) := λ w, (w, Returned (recon w)).
Definition put_recon (r : Gridrec F G) : M F G unit :=
  λ w, ({| recon := r; trace := trace w |}, Returned tt).
End Monad.

Notation "x <- m ;; k" := (bind m (λ x, k))
  (at level 100, m at next level, right associativity).
Notation "m ;;; k" := (bind m (λ _, k))
  (at level 100, right associativity).

Section OptimizeCenter.
Context {F : Type} `{Scalar F} {G : Type}.

(** The external collaborators: the class [Gridrec] of the module
    [gridrec], [scipy.ndimage.filters.gaussian_filter], [np.histogram] (the
    counts it returns), [np.log2], and [scipy.optimize.minimize] with
    [method='Nelder-Mead'] as a function of its start point and tolerance. *)
Variable Gridrec_init : volume F -> Z -> Z -> Gridrec F G.
Variable reconstruct :
  Gridrec F G -> volume F -> list F -> F -> Z -> outcome (Gridrec F G).
Variable gaussian_filter : volume F -> F -> volume F.
Variable histogram : volume F -> nat -> F * F -> outcome (list Z).
Variable log2 : F -> F.
Variable minimize : F -> F -> minimizer F.

(** [data.shape[2]] of a 3-D array (of one with at least one pixel: nested
    lists keep no shape for an empty array). *)
Definition shape_2 (data : volume F) : nat :=
  match data with
  | (row :: _) :: _ => length row
  | _ => 0%nat
  end.

(** [a.size]. *)
Definition size (a : volume F) : nat := length (concat (concat a)).

(** [np.min(a)] and [np.max(a)] over all elements. *)
Definition np_min (a : volume F) : outcome F :=
  match concat (concat a) with
  | [] => Raised ValueError
  | x :: xs => Returned (foldl fmin x xs)
  end.
Definition np_max (a : volume F) : outcome F :=
  match concat (concat a) with
  | [] => Raised ValueError
  | x :: xs => Returned (foldl fmax x xs)
  end.

(** [np.dot] of two 1-D arrays. *)
Definition sum_of (l : list F) : F := foldl add zero l.
Definition dot (a b : list F) : F := sum_of (zip_with mul a b).

(** [recon.reconstruct(data, theta=theta, center=center, slice_no=slice_no)]. *)
Definition call_reconstruct (data : volume F) (theta : list F) (center : F)
    (slice_no : Z) : M F G unit :=
  emit (Reconstruct center slice_no) ;;;
  r <- get_recon ;;
  r1 <- lift (reconstruct r data theta center slice_no) ;;
  put_recon r1.

(** [rad = data.shape[2]/2] (integer division),
    [y, x = np.ogrid[-rad:rad, -rad:rad]] and
    [msk = x*x + y*y > ratio*ratio*rad*rad]. *)
Definition mask_radius (data : volume F) : Z := Z.of_nat (shape_2 data) / 2.
Definition mask_threshold (ratio : F) (rad : Z) : F :=
  mul (mul (mul ratio ratio) (of_Z rad)) (of_Z rad).
Definition outside (ratio : F) (rad x y : Z) : bool :=
  gtb (of_Z (x * x + y * y)) (mask_threshold ratio rad).
Definition circular_mask (data : volume F) (ratio : F) : list (list bool) :=
  let rad := mask_radius data in
  let grid := seqZ (- rad) (rad - - rad) in
  (λ y : Z, (λ x : Z, outside ratio rad x y) <$> grid) <$> grid.

(** [a[0, msk] = 0]: an array [a] with no image raises; an empty mask
    (the one [rad = 0] gives) selects nothing and is accepted on an image of
    any shape; any other mask has to have the shape of the image [a[0]]. *)
Definition mask_assign (msk : list (list bool)) (a : volume F)
  : outcome (volume F) :=
  match a with
  | [] => Raised IndexError
  | img :: rest =>
    match msk with
    | [] => Returned (img :: rest)
    | _ :: _ =>
      if bool_decide (shape img = shape msk)
      then Returned
             (zip_with (zip_with (λ (b : bool) (v : F), if b then zero else v)) msk img
              :: rest)
      else Raised IndexError
    end
  end.

(** [a'] is [a] with its first image masked: the image is [2 * rad] pixels
    on each edge, the pixel in row [i] and column [j] has the image-centred
    coordinates [x = j - rad], [y = i - rad], it is zero when it lies
    outside the circle and unchanged otherwise. *)
Definition circle_masked (data : volume F) (ratio : F) (a a' : volume F) : Prop :=
  let rad := mask_radius data in
  exists (img img' : frame F) (rest : volume F),
    a = img :: rest /\ a' = img' :: rest
    /\ shape img' = shape img
    /\ Z.of_nat (length img) = 2 * rad
    /\ Forall (λ row : list F, Z.of_nat (length row) = 2 * rad) img
    /\ forall (i j : nat) (v : F),
         pixel img i j = Some v ->
         pixel img' i j
         = Some (if outside ratio rad (Z.of_nat j - rad) (Z.of_nat i - rad)
                 then zero else v).

(** The reconstructor object after the masking block. *)
Definition masked (data : volume F) (mask : bool) (ratio : F) (r : Gridrec F G)
  : outcome (Gridrec F G) :=
  if mask then
    match mask_assign (circular_mask data ratio) (data_recon r) with
    | Returned a => Returned (set_data_recon r a)
    | Raised e => Raised e
    end
  else Returned r.

(** The block under [# Apply circular mask.], the same in both functions. *)
Definition apply_mask (data : volume F) (mask : bool) (ratio : F) : M F G unit :=
  if mask then
    r <- get_recon ;;
    a <- lift (mask_assign (circular_mask data ratio) (data_recon r)) ;;
    put_recon (set_data_recon r a)
  else ret tt.

(** The block under [# Adjust histogram boundaries according to
    reconstruction.] *)
Definition widen_min (hist_min : F) : F :=
  if ltb hist_min zero then mul two hist_min
  else if geb hist_min zero then mul half hist_min
  else hist_min.
Definition widen_max (hist_max : F) : F :=
  if ltb hist_max zero then mul half hist_max
  else if geb hist_max zero then mul two hist_max
  else hist_max.
Definition hist_limits (a : volume F) : outcome (F * F) :=
  match np_min a with
  | Raised e => Raised e
  | Returned hist_min =>
    match np_max a with
    | Raised e => Raised e
    | Returned hist_max => Returned (widen_min hist_min, widen_max hist_max)
    end
  end.

Definition call_histogram (a : volume F) (bins : nat) (lo hi : F)
  : M F G (list Z) :=
  emit (Histogram bins lo hi) ;;;
  lift (histogram a bins (lo, hi)).

(** [histr.astype('float32') / recon.data_recon.size + 1e-12], one bucket. *)
Definition probability (total : nat) (count : Z) : F :=
  add (div (float32 (of_Z count)) (of_Z (Z.of_nat total))) tiny.

Definition _costFunc (center : F) (data : volume F) (theta : list F)
    (slice_no : Z) (hist_min hist_max : F) (mask : bool) (ratio : F) : M F G F :=
  emit (Trying center) ;;;
  let center := float32 center in
  call_reconstruct data theta center slice_no ;;;
  apply_mask data mask ratio ;;;
  r <- get_recon ;;
  histr <- call_histogram (gaussian_filter (data_recon r) two) 64 hist_min hist_max ;;
  let histr := probability (size (data_recon r)) <$> histr in
  ret (neg (dot histr (log2 <$> histr))).

(** [minimize(_costFunc, x0, args=..., method='Nelder-Mead', tol=tol)] run
    against the objective [fn]: an exception of the objective ends the
    search. *)
Fixpoint run_minimizer (fn : F -> M F G F) (m : minimizer F)
  : M F G (OptimizeResult F) :=
  match m with
  | Finish res => ret res
  | Evaluate x k =>
    s <- fn x ;;
    emit (Objective x s) ;;;
    run_minimizer fn (k s)
  end.

(** The statements of [optimize_center] up to the call of [minimize]. *)
Definition initialize (data : volume F) (theta : list F) (slice_no : Z)
    (center_init : F) (mask : bool) (ratio : F) : M F G (F * F) :=
  call_reconstruct data theta center_init slice_no ;;;
  apply_mask data mask ratio ;;;
  r <- get_recon ;;
  lift (hist_limits (data_recon r)).

Definition optimize_center_body (data : volume F) (theta : list F)
    (slice_no : Z) (center_init tol : F) (mask : bool) (ratio : F) : M F G F :=
  range <- initialize data theta slice_no center_init mask ratio ;;
  res <- run_minimizer
           (λ center, _costFunc center data theta slice_no
                        range.1 range.2 mask ratio)
           (minimize center_init tol) ;;
  emit (Calculated (res_x res)) ;;;
  ret (res_x res).

(** [optimize_center(data, theta, slice_no, center_init, tol, mask, ratio)]:
    what it prints and calls, and what it returns or raises. *)
Definition optimize_center (data : volume F) (theta : list F) (slice_no : Z)
    (center_init tol : F) (mask : bool) (ratio : F)
  : list (event F) * outcome F :=
  let w0 := {| recon := Gridrec_init data 20 10; trace := [] |} in
  let (w, o) := optimize_center_body data theta slice_no center_init tol mask ratio w0 in
  (trace w, o).

(** *** Notions the properties are stated with *)

(** The score computed from the counts of the histogram. *)
Definition entropy_score (total : nat) (counts : list Z) : F :=
  neg (sum_of ((λ c : Z, mul (probability total c) (log2 (probability total c)))
               <$> counts)).

(** An event that is not a call of [np.histogram], or is one with 64 bins
    over [[lo, hi]]. *)
Definition range_is (lo hi : F) (e : event F) : Prop :=
  match e with
  | Histogram bins l h => bins = 64%nat /\ l = lo /\ h = hi
  | _ => True
  end.

Definition no_histogram (e : event F) : Prop :=
  match e with
  | Histogram _ _ _ => False
  | _ => True
  end.

(** [m] only appends events, each of them satisfying [P]. *)
Definition appends {A} (P : event F -> Prop) (m : M F G A) : Prop :=
  forall w : world F G,
    exists evs : list (event F), trace (m w).1 = trace w ++ evs /\ Forall P evs.

End OptimizeCenter.


(** What one evaluation of the objective that returns leaves in the trace:
    the print, the reconstruction at the cast candidate, the histogram over
    [[lo, hi]] and the score handed to the minimizer. *)
Definition evaluation {F : Type} `{Scalar F} (slice_no : Z) (lo hi : F)
    (e : F * F) : list (event F) :=
  [Trying e.1; Reconstruct (float32 e.1) slice_no; Histogram 64 lo hi;
   Objective e.1 e.2].

(** What an evaluation that raises leaves: it stops after the reconstructor
    call (the reconstructor or the mask raised) or after the histogram call. *)
Definition broken_evaluation {F : Type} `{Scalar F} (slice_no : Z) (lo hi x : F)
    (t : list (event F)) : Prop :=
  t = [Trying x; Reconstruct (float32 x) slice_no]
  \/ t = [Trying x; Reconstruct (float32 x) slice_no; Histogram 64 lo hi].



(** ** A small world to run the model in *)

(** Stand-ins for the external collaborators, over exact rationals: a
    reconstructor that draws a 4 x 4 image from the candidate centre (and
    fails for a negative one), no smoothing, a reference histogram with
    equal-width bins, an integer approximation of the logarithm, and a
    minimizer that compares two points. *)
Module Phantom.

Definition Gridrec_init (data : volume Q) (airPixels ringWidth : Z) : Gridrec Q unit :=
  {| gridrec_state := tt; data_recon := [] |}.

Definition image (center : Q) : frame Q :=
  [[ 1;  2;  3;  4];
   [ 5;  6; center;  8];
   [-4; 10;  9;  7];
   [ 3;  2;  1;  0]]%Q.

Definition reconstruct (r : Gridrec Q unit) (data : volume Q) (theta : list Q)
    (center : Q) (slice_no : Z) : outcome (Gridrec Q unit) :=
  if Qle_bool 0 center
  then Returned {| gridrec_state := tt; data_recon := [image center] |}
  else Raised ExternalError.

Definition gaussian_filter (a : volume Q) (sigma : Q) : volume Q := a.

(** The bucket of [v] among [bins] equal buckets of [[lo, hi]]; the last
    bucket includes [hi]. *)
Definition bucket (bins : nat) (lo hi v : Q) : option Z :=
  if negb (Qle_bool lo v) || negb (Qle_bool v hi) then None
  else if Qle_bool hi v then Some (Z.of_nat bins - 1)
  else Some (Qfloor ((v - lo) * inject_Z (Z.of_nat bins) / (hi - lo))).

Definition count_bucket (bins : nat) (lo hi : Q) (vs : list Q) (i : Z) : Z :=
  Z.of_nat (length (filter (λ v, bucket bins lo hi v = Some i) vs)).

Definition histogram (a : volume Q) (bins : nat) (range : Q * Q)
  : outcome (list Z) :=
  let (lo, hi) := range in
  if negb (Qle_bool lo hi) then Raised ValueError
  else
    let (lo, hi) := if Qle_bool hi lo then (lo - (1 # 2), hi + (1 # 2))%Q else (lo, hi) in
    Returned (count_bucket bins lo hi (concat (concat a)) <$> seqZ 0 (Z.of_nat bins)).

Definition log2 (p : Q) : Q :=
  inject_Z (Z.log2 (Qnum p) - Z.log2 (Zpos (Qden p))).

Definition result (x f : Q) (converged : bool) : OptimizeResult Q :=
  {| res_x := x; res_fun := f; res_success := converged |}.

(** Compare the objective at [x0] and at [x0 + 1] and stop; the search
    counts as converged when the two values agree within [tol]. *)
Definition minimize (x0 tol : Q) : minimizer Q :=
  Evaluate x0 (λ f0,
    Evaluate (x0 + 1)%Q (λ f1,
      let converged := Qle_bool (Qabs (f1 - f0)) tol in
      if Qle_bool f0 f1 then Finish (result x0 f0 converged)
      else Finish (result (x0 + 1)%Q f1 converged))).

Definition data : volume Q := [[[0; 0; 0; 0]]; [[0; 0; 0; 0]]]%Q.

(** The state [optimize_center] starts from, and the state after a
    reconstruction at [center], masked with [ratio] when there is one. *)
Definition start : world Q unit :=
  {| recon := Gridrec_init data 20 10; trace := [] |}.

Definition masked_image (center : Q) (ratio : option Q) : volume Q :=
  match ratio with
  | None => [image center]
  | Some ratio =>
    match mask_assign (circular_mask data ratio) [image center] with
    | Returned a => a
    | Raised _ => []
    end
  end.

Definition after (center : Q) (ratio : option Q) (t : list (event Q)) : world Q unit :=
  {| recon := {| gridrec_state := tt; data_recon := masked_image center ratio |};
     trace := t |}.

(** A minimizer that steps down: it compares the objective at [x0] and at
    [x0 - 1]. *)
Definition descend (x0 tol : Q) : minimizer Q :=
  Evaluate x0 (λ f0,
    Evaluate (x0 - 1)%Q (λ f1,
      if Qle_bool f0 f1 then Finish (result x0 f0 true)
      else Finish (result (x0 - 1)%Q f1 true))).


(** A reconstructor that hands back no image at all. *)
Definition blank (r : Gridrec Q unit) (data : volume Q) (theta : list Q)
    (center : Q) (slice_no : Z) : outcome (Gridrec Q unit) :=
  Returned {| gridrec_state := tt; data_recon := [] |}.

(** The score of the objective at [center] over the range [[lo, hi]]. *)
Definition score_at (center : Q) (ratio : option Q) (lo hi : Q) : Q :=
  match histogram (gaussian_filter (masked_image center ratio) two) 64 (lo, hi) with
  | Returned counts =>
    entropy_score log2 (size (masked_image center ratio)) counts
  | Raised _ => 0%Q
  end.

End Phantom.

(** ** Properties of [normalize] *)

Example normalize_Q_example :
  normalize ([0; 2], (3, 1, 2)%nat, ([[2%Q; 2%Q]], [[0%Q; 0%Q]], None))
    [[[4%Q; 6%Q]]; [[8%Q; 10%Q]]; [[1%Q; 3%Q]]]
  = ([[[2; 3]]; [[8; 10]]; [[1 # 2; 3 # 2]]]%Q, Returned tt).
Proof. reflexivity. Qed.

Section ArrayFacts.
Context {F : Type} `{Scalar F}.

Lemma shape_zip2 {A B C} (f : A -> B -> C) (a : list (list A)) (b : list (list B)) :
  shape a = shape b -> shape (zip_with (zip_with f) a b) = shape a.
Proof.
  revert b. induction a as [|row a IH]; intros [|row' b]; simpl; try done.
  intros [= Hlen Hrest]. f_equal; [|by apply IH].
  rewrite length_zip_with. lia.
Qed.

Lemma pixel_zip2 {A B C} (f : A -> B -> C) (a : list (list A)) (b : list (list B))
    (r k : nat) :
  pixel (zip_with (zip_with f) a b) r k
  = (x ← pixel a r k; y ← pixel b r k; Some (f x y)).
Proof.
  unfold pixel. rewrite lookup_zip_with.
  destruct (a !! r) as [ra|]; simpl; [|done].
  destruct (b !! r) as [rb|]; simpl.
  - rewrite lookup_zip_with. by destruct (ra !! k).
  - by destruct (ra !! k).
Qed.

(** Arrays of one shape have their pixels at the same places. *)
Lemma pixel_same_shape {A B} (a : list (list A)) (b : list (list B)) (r k : nat) :
  shape a = shape b -> is_Some (pixel a r k) -> is_Some (pixel b r k).
Proof.
  intros Hs [x Hx]. unfold pixel in *.
  destruct (a !! r) as [ra|] eqn:Hra; simpl in Hx; [|done].
  assert (Hlen : shape a !! r = Some (length ra))
    by (unfold shape; by rewrite list_lookup_fmap, Hra).
  rewrite Hs in Hlen. unfold shape in Hlen. rewrite list_lookup_fmap in Hlen.
  destruct (b !! r) as [rb|]; simpl in *; [|done].
  injection Hlen as Hlen. apply lookup_lt_is_Some_2. rewrite Hlen.
  by eapply lookup_lt_Some.
Qed.

Lemma elementwise_same_shape (f : F -> F -> F) (a b : frame F) :
  shape a = shape b ->
  elementwise f a b = Returned (zip_with (zip_with f) a b).
Proof. intros Hs. unfold elementwise. by rewrite bool_decide_eq_true_2. Qed.

Lemma cell_clamp_all (c : F) (data : volume F) (m r k : nat) :
  cell (clamp_all c data) m r k = clamp c <$> cell data m r k.
Proof.
  unfold cell, clamp_all. rewrite list_lookup_fmap.
  destruct (data !! m) as [p|]; simpl; [|done].
  rewrite list_lookup_fmap. destruct (p !! r) as [row|]; simpl; [|done].
  by rewrite list_lookup_fmap.
Qed.

Lemma resolve_index_in_range (n : nat) (m : Z) :
  0 <= m < Z.of_nat n -> resolve_index n m = Some (Z.to_nat m).
Proof. intros Hm. unfold resolve_index. by rewrite bool_decide_eq_true_2. Qed.

End ArrayFacts.

Section NormalizeFacts.
Context {F : Type} `{Scalar F}.
Variables data_white data_dark : frame F.
Hypothesis dark_shape : shape data_dark = shape data_white.

Lemma normalize_projection_ok (proj : frame F) :
  shape proj = shape data_white ->
  normalize_projection data_white data_dark proj
  = Returned (normalized data_white data_dark proj)
  /\ shape (normalized data_white data_dark proj) = shape data_white.
Proof.
  intros Hp. unfold normalize_projection, normalized.
  assert (Hnum : shape (zip_with (zip_with sub) proj data_dark) = shape data_white)
    by (rewrite shape_zip2; congruence).
  assert (Hden : shape (zip_with (zip_with sub) data_white data_dark) = shape data_white)
    by (rewrite shape_zip2; congruence).
  rewrite !elementwise_same_shape by congruence.
  split; [done|]. rewrite shape_zip2; congruence.
Qed.

Lemma pixel_normalized (proj : frame F) (r k : nat) :
  pixel (normalized data_white data_dark proj) r k
  = (x ← pixel proj r k; d ← pixel data_dark r k; w ← pixel data_white r k;
     Some (div (sub x d) (sub w d))).
Proof.
  unfold normalized. rewrite !pixel_zip2.
  destruct (pixel proj r k), (pixel data_dark r k), (pixel data_white r k); done.
Qed.

(** The loop over a duplicate-free list of in-range indices returns, and
    replaces exactly the listed projections. *)
Lemma normalize_loop_spec (ind : list Z) (data : volume F) :
  NoDup ind ->
  Forall (λ m, 0 <= m < Z.of_nat (length data)) ind ->
  projections_ok data_white data ->
  exists data' : volume F,
    normalize_loop data_white data_dark ind data = (data', Returned tt)
    /\ length data' = length data
    /\ projections_ok data_white data'
    /\ forall i : nat,
         data' !! i = if bool_decide (Z.of_nat i ∈ ind)
                      then normalized data_white data_dark <$> data !! i else data !! i.
Proof.
  revert data. induction ind as [|m ind IH]; intros data Hnd Hrange Hok.
  - by exists data.
  - apply NoDup_cons in Hnd as [Hm Hnd].
    apply Forall_cons in Hrange as [Hm_range Hrange].
    simpl. rewrite resolve_index_in_range by done.
    destruct (lookup_lt_is_Some_2 data (Z.to_nat m)) as [proj Hproj]; [lia|].
    rewrite Hproj.
    destruct (normalize_projection_ok proj) as [-> Hshape].
    { eapply Forall_lookup_1 in Hok; eauto. }
    assert (Hrange' : Forall (λ j, 0 <= j < Z.of_nat (length (<[Z.to_nat m:=normalized data_white data_dark proj]> data))) ind)
      by (by rewrite length_insert).
    assert (Hok1 : projections_ok data_white (<[Z.to_nat m:=normalized data_white data_dark proj]> data))
      by (by apply Forall_insert).
    destruct (IH _ Hnd Hrange' Hok1) as (data' & Hrun & Hlen & Hok' & Hget).
    exists data'. rewrite length_insert in Hlen. repeat split; try done.
    intros i. rewrite Hget.
    destruct (decide (i = Z.to_nat m)) as [->|Hne].
    + rewrite Z2Nat.id by lia.
      rewrite (bool_decide_eq_false_2 _ Hm).
      rewrite (bool_decide_eq_true_2 (m ∈ m :: ind)) by apply list_elem_of_here.
      rewrite list_lookup_insert_eq by lia. by rewrite Hproj.
    + rewrite list_lookup_insert_ne by done.
      assert (Z.of_nat i ≠ m) by lia.
      destruct (decide (Z.of_nat i ∈ ind)) as [Hin|Hnin].
      * rewrite !bool_decide_eq_true_2; try done. by apply list_elem_of_further.
      * rewrite !bool_decide_eq_false_2; try done.
        intros [?|?]%elem_of_cons; done.
Qed.

End NormalizeFacts.

Section NormalizeSpec.
Context {F : Type} `{Scalar F}.
Variable dshape : nat * nat * nat.
Variables data_white data_dark : frame F.
Hypothesis dark_shape : shape data_dark = shape data_white.

(** What one call leaves in every cell of the shared array, for any
    arithmetic: the listed projections are divided, and then the clamp
    runs over the whole array. *)
Lemma normalize_cells (ind : list Z) (cutoff : option F) (data : volume F) :
  NoDup ind ->
  Forall (λ m, 0 <= m < Z.of_nat (length data)) ind ->
  projections_ok data_white data ->
  exists data' : volume F,
    normalize (ind, dshape, (data_white, data_dark, cutoff)) data = (data', Returned tt)
    /\ length data' = length data
    /\ forall i r k : nat,
         cell data' i r k
         = clamp_opt cutoff <$>
             (if bool_decide (Z.of_nat i ∈ ind)
              then cell data i r k ≫= quotient_at data_white data_dark r k
              else cell data i r k).
Proof.
  intros Hnd Hrange Hok.
  destruct (normalize_loop_spec data_white data_dark dark_shape ind data Hnd Hrange Hok)
    as (data1 & Hrun & Hlen & _ & Hget).
  assert (Hcells : forall i r k : nat,
    cell data1 i r k = if bool_decide (Z.of_nat i ∈ ind)
                       then cell data i r k ≫= quotient_at data_white data_dark r k
                       else cell data i r k).
  { intros i r k. unfold cell at 1. rewrite Hget.
    case_bool_decide; [|done].
    unfold cell. destruct (data !! i) as [p|]; simpl; [|done].
    fold (pixel (normalized data_white data_dark p) r k).
    rewrite pixel_normalized. fold (pixel p r k).
    destruct (pixel p r k); simpl; [|done].
    unfold quotient_at. done. }
  unfold normalize, tonumpyarray. rewrite Hrun. destruct cutoff as [c|].
  - exists (clamp_all c data1). split; [done|]. split.
    + unfold clamp_all. by rewrite length_fmap.
    + intros i r k. rewrite cell_clamp_all, Hcells. done.
  - exists data1. split; [done|]. split; [done|].
    intros i r k. rewrite Hcells. simpl.
    by destruct (if bool_decide _ then _ else _).
Qed.

End NormalizeSpec.

(** For elements with the order of ordinary numbers (no NaN): every
    projection [m] of a partition of distinct indices holds
    [(data[m] - dark) / (white - dark)] elementwise after [normalize]; with a
    cutoff, every value of the result is [<= cutoff], and a quotient that is
    already [<= cutoff] is stored unchanged. *)
Theorem normalize_partition_correct {F : Type} `{ScalarOrder F}
    (ind : list Z) (dshape : nat * nat * nat) (data_white data_dark : frame F)
    (cutoff : option F) (data : volume F) :
  NoDup ind ->
  Forall (λ m, 0 <= m < Z.of_nat (length data)) ind ->
  shape data_dark = shape data_white ->
  Forall (λ p : frame F, shape p = shape data_white) data ->
  exists data' : volume F,
    normalize (ind, dshape, (data_white, data_dark, cutoff)) data = (data', Returned tt)
    /\ (forall (m : Z) (r k : nat) (x d w : F),
          m ∈ ind ->
          cell data (Z.to_nat m) r k = Some x ->
          pixel data_dark r k = Some d ->
          pixel data_white r k = Some w ->
          let q := div (sub x d) (sub w d) in
          match cutoff with
          | None => cell data' (Z.to_nat m) r k = Some q
          | Some c => cell data' (Z.to_nat m) r k = Some (if leb q c then q else c)
          end)
    /\ (forall (c : F) (i r k : nat) (v : F),
          cutoff = Some c -> cell data' i r k = Some v -> leb v c = true).
Proof.
  intros Hnd Hrange Hdark Hok.
  destruct (normalize_cells dshape data_white data_dark Hdark ind cutoff data Hnd Hrange Hok)
    as (data' & Hrun & _ & Hcells).
  exists data'. split; [done|]. split.
  - intros m r k x d w Hm Hx Hd Hw q.
    assert (Hm' : 0 <= m) by (eapply Forall_forall in Hrange; [|done]; simpl in Hrange; lia).
    assert (Hq : cell data' (Z.to_nat m) r k = Some (clamp_opt cutoff q)).
    { rewrite Hcells, bool_decide_eq_true_2 by (by rewrite Z2Nat.id).
      rewrite Hx. simpl. unfold quotient_at. rewrite Hd, Hw. done. }
    destruct cutoff as [c|]; [|done].
    rewrite Hq. simpl. unfold clamp. rewrite leb_gtb. by destruct (gtb q c).
  - intros c i r k v -> Hv. rewrite Hcells in Hv.
    destruct (if bool_decide _ then _ else _) as [u|]; [|done].
    simpl in Hv. injection Hv as <-. unfold clamp.
    destruct (gtb u c) eqn:Hu; rewrite leb_gtb.
    + by rewrite gtb_irrefl.
    + by rewrite Hu.
Qed.

Lemma normalize_partition_correct_witness :
  exists data' : volume Q,
    normalize ([0; 2], (3, 1, 2)%nat, ([[2%Q; 2%Q]], [[0%Q; 0%Q]], Some 4%Q))
      [[[4%Q; 6%Q]]; [[8%Q; 10%Q]]; [[1%Q; 12%Q]]] = (data', Returned tt)
    /\ (forall (m : Z) (r k : nat) (x d w : Q),
          m ∈ [0; 2] ->
          cell [[[4%Q; 6%Q]]; [[8%Q; 10%Q]]; [[1%Q; 12%Q]]] (Z.to_nat m) r k = Some x ->
          pixel [[0%Q; 0%Q]] r k = Some d ->
          pixel [[2%Q; 2%Q]] r k = Some w ->
          let q := div (sub x d) (sub w d) in
          cell data' (Z.to_nat m) r k = Some (if leb q 4%Q then q else 4%Q))
    /\ (forall (c : Q) (i r k : nat) (v : Q),
          Some 4%Q = Some c -> cell data' i r k = Some v -> leb v c = true).
Proof.
  apply (normalize_partition_correct (F:=Q) [0; 2] (3, 1, 2)%nat [[2%Q; 2%Q]] [[0%Q; 0%Q]] (Some 4%Q)
           [[[4%Q; 6%Q]]; [[8%Q; 10%Q]]; [[1%Q; 12%Q]]]).
  - apply NoDup_cons; split; [by intros [= ]%list_elem_of_singleton|].
    apply NoDup_singleton.
  - repeat constructor; simpl; lia.
  - reflexivity.
  - repeat constructor.
Defined.

(** C1, as the code has it.  For a worker's partition [ind] (distinct
    indices of the array) and any arithmetic: the call returns, and every
    projection [m] of the partition holds [(data[m] - dark) / (white - dark)]
    elementwise, each quotient stored unchanged unless it exceeds the cutoff
    ([q > cutoff]), in which case the cutoff is stored.  With a cutoff that
    does not exceed itself, no value [v] of the result satisfies
    [v > cutoff]; a value that does not compare with the cutoff (a NaN)
    stays. *)
Theorem normalize_partition_clamped {F : Type} `{Scalar F}
    (ind : list Z) (dshape : nat * nat * nat) (data_white data_dark : frame F)
    (cutoff : option F) (data : volume F) :
  NoDup ind ->
  Forall (λ m, 0 <= m < Z.of_nat (length data)) ind ->
  shape data_dark = shape data_white ->
  Forall (λ p : frame F, shape p = shape data_white) data ->
  exists data' : volume F,
    normalize (ind, dshape, (data_white, data_dark, cutoff)) data
      = (data', Returned tt)
    /\ (forall (m : Z) (r k : nat) (x d w : F),
          m ∈ ind ->
          cell data (Z.to_nat m) r k = Some x ->
          pixel data_dark r k = Some d ->
          pixel data_white r k = Some w ->
          let q := div (sub x d) (sub w d) in
          match cutoff with
          | None => cell data' (Z.to_nat m) r k = Some q
          | Some c => cell data' (Z.to_nat m) r k = Some (if gtb q c then c else q)
          end)
    /\ (forall (c : F) (i r k : nat) (v : F),
          cutoff = Some c -> gtb c c = false ->
          cell data' i r k = Some v -> gtb v c = false).
Proof.
  intros Hnd Hrange Hdark Hok.
  destruct (normalize_cells dshape data_white data_dark Hdark ind cutoff data Hnd Hrange Hok)
    as (data' & Hrun & _ & Hcells).
  exists data'. split; [done|]. split.
  - intros m r k x d w Hm Hx Hd Hw q.
    assert (Hm' : 0 <= m) by (eapply Forall_forall in Hrange; [|done]; simpl in Hrange; lia).
    assert (Hq : cell data' (Z.to_nat m) r k = Some (clamp_opt cutoff q)).
    { rewrite Hcells, bool_decide_eq_true_2 by (by rewrite Z2Nat.id).
      rewrite Hx. simpl. unfold quotient_at. rewrite Hd, Hw. done. }
    by destruct cutoff as [c|].
  - intros c i r k v -> Hc Hv. rewrite Hcells in Hv.
    destruct (if bool_decide _ then _ else _) as [u|]; [|done].
    simpl in Hv. injection Hv as <-. unfold clamp.
    by destruct (gtb u c) eqn:Hu.
Qed.

Lemma normalize_partition_clamped_witness :
  exists data' : volume float,
    normalize ([0], (2, 1, 2)%nat, ([[2%float; 2%float]], [[0%float; 0%float]],
                                    Some 1%float))
      [[[nan; 6%float]]; [[1%float; 3%float]]] = (data', Returned tt)
    /\ (forall (m : Z) (r k : nat) (x d w : float),
          m ∈ [0] ->
          cell [[[nan; 6%float]]; [[1%float; 3%float]]] (Z.to_nat m) r k = Some x ->
          pixel [[0%float; 0%float]] r k = Some d ->
          pixel [[2%float; 2%float]] r k = Some w ->
          let q := div (sub x d) (sub w d) in
          cell data' (Z.to_nat m) r k = Some (if gtb q 1%float then 1%float else q))
    /\ (forall (c : float) (i r k : nat) (v : float),
          Some 1%float = Some c -> gtb c c = false ->
          cell data' i r k = Some v -> gtb v c = false).
Proof.
  apply (normalize_partition_clamped (F:=float) [0] (2, 1, 2)%nat
           [[2%float; 2%float]] [[0%float; 0%float]] (Some 1%float)
           [[[nan; 6%float]]; [[1%float; 3%float]]]).
  - apply NoDup_singleton.
  - repeat constructor; simpl; lia.
  - reflexivity.
  - repeat constructor.
Defined.

(** C1, as the specification states it, fails on IEEE floats: a NaN in the
    result is not [<= cutoff].  A raw NaN pixel gives a NaN quotient with
    proper frames, and so does [0/0] where a white and a dark pixel
    coincide; [data > cutoff] is false for it and the clamp leaves it. *)
Lemma normalize_nan_not_below_cutoff :
  normalize ([0], (1, 1, 2)%nat, ([[2%float; 2%float]], [[0%float; 0%float]],
                                  Some 1%float))
    [[[nan; 6%float]]]
  = ([[[nan; 1%float]]], Returned tt)
  /\ normalize ([0], (1, 1, 1)%nat, ([[2%float]], [[2%float]], Some 1%float))
       [[[2%float]]]
     = ([[[nan]]], Returned tt)
  /\ leb (nan : float) 1%float = false.
Proof. repeat split. Qed.

(** *** Projections outside the partition *)

Section NormalizeFrame.
Context {F : Type} `{Scalar F}.
Variable dshape : nat * nat * nat.
Variables data_white data_dark : frame F.

(** The loop writes only the projections its indices resolve to, whatever
    the inputs are and also when it raises. *)
Lemma normalize_loop_frame (ind : list Z) (data : volume F) (i : nat) :
  (forall m : Z, m ∈ ind -> resolve_index (length data) m ≠ Some i) ->
  (normalize_loop data_white data_dark ind data).1 !! i = data !! i
  /\ length (normalize_loop data_white data_dark ind data).1 = length data.
Proof.
  revert data. induction ind as [|m ind IH]; intros data Hout; simpl; [done|].
  destruct (resolve_index (length data) m) as [j|] eqn:Hj; [|done].
  destruct (data !! j) as [proj|]; [|done].
  destruct (normalize_projection data_white data_dark proj) as [q|e]; [|done].
  destruct (IH (<[j:=q]> data)) as [Hget Hlen].
  - intros m' Hm'. rewrite length_insert. apply Hout. by apply list_elem_of_further.
  - rewrite Hget, Hlen, length_insert. split; [|done].
    apply list_lookup_insert_ne. intros ->.
    by apply (Hout m); [apply list_elem_of_here|].
Qed.

(** X1.  Without a cutoff, a call leaves every projection outside its
    partition as it was, whatever the inputs are and also when it raises. *)
Lemma normalize_frame_without_cutoff (ind : list Z) (data : volume F) (i : nat) :
  (forall m : Z, m ∈ ind -> resolve_index (length data) m ≠ Some i) ->
  (normalize (ind, dshape, (data_white, data_dark, None)) data).1 !! i = data !! i.
Proof.
  intros Hout. unfold normalize, tonumpyarray.
  pose proof (normalize_loop_frame ind data i Hout) as [Hget _].
  by destruct (normalize_loop data_white data_dark ind data) as [data1 [[]|e]].
Qed.

Lemma normalize_loop_app (ind1 ind2 : list Z) (data : volume F) :
  normalize_loop data_white data_dark (ind1 ++ ind2) data
  = match normalize_loop data_white data_dark ind1 data with
    | (data1, Raised e) => (data1, Raised e)
    | (data1, Returned _) => normalize_loop data_white data_dark ind2 data1
    end.
Proof.
  revert data. induction ind1 as [|m ind1 IH]; intros data; simpl; [done|].
  destruct (resolve_index (length data) m) as [j|]; [|done].
  destruct (data !! j) as [proj|]; [|done].
  by destruct (normalize_projection data_white data_dark proj).
Qed.

Lemma normalize_without_cutoff (ind : list Z) (data : volume F) :
  normalize (ind, dshape, (data_white, data_dark, None)) data
  = normalize_loop data_white data_dark ind data.
Proof.
  unfold normalize, tonumpyarray.
  by destruct (normalize_loop data_white data_dark ind data) as [data1 [[]|e]].
Qed.

(** Without a cutoff, workers run one after another are one loop over the
    concatenation of their partitions. *)
Lemma normalize_workers_concat (parts : list (list Z)) (data : volume F) :
  normalize_workers parts dshape (data_white, data_dark, None) data
  = normalize_loop data_white data_dark (concat parts) data.
Proof.
  revert data. induction parts as [|ind parts IH]; intros data; [done|].
  cbn [normalize_workers concat].
  rewrite normalize_loop_app, normalize_without_cutoff.
  destruct (normalize_loop data_white data_dark ind data) as [data1 [[]|e]]; [|done].
  apply IH.
Qed.

Hypothesis dark_shape : shape data_dark = shape data_white.

(** The loop does not depend on the order of a duplicate-free partition. *)
Lemma normalize_loop_permutation (ind1 ind2 : list Z) (data : volume F) :
  NoDup ind1 -> ind1 ≡ₚ ind2 ->
  Forall (λ m, 0 <= m < Z.of_nat (length data)) ind1 ->
  projections_ok data_white data ->
  normalize_loop data_white data_dark ind1 data
  = normalize_loop data_white data_dark ind2 data.
Proof.
  intros Hnd Hperm Hrange Hok.
  assert (Hnd2 : NoDup ind2) by (by rewrite <- Hperm).
  assert (Hrange2 : Forall (λ m, 0 <= m < Z.of_nat (length data)) ind2)
    by (by rewrite <- Hperm).
  destruct (normalize_loop_spec data_white data_dark dark_shape ind1 data Hnd Hrange Hok)
    as (d1 & -> & _ & _ & Hget1).
  destruct (normalize_loop_spec data_white data_dark dark_shape ind2 data Hnd2 Hrange2 Hok)
    as (d2 & -> & _ & _ & Hget2).
  f_equal. apply list_eq. intros i. rewrite Hget1, Hget2.
  destruct (decide (Z.of_nat i ∈ ind1)) as [Hin|Hnin].
  - rewrite !bool_decide_eq_true_2; try done. by rewrite <- Hperm.
  - rewrite !bool_decide_eq_false_2; try done. by rewrite <- Hperm.
Qed.

(** X2.  Without a cutoff: disjoint partitions that cover
    [0, num_projections), run in any order one after another, leave the array
    that one call on the whole range leaves. *)
Lemma normalize_workers_without_cutoff (parts : list (list Z)) (data : volume F) :
  concat parts ≡ₚ seqZ 0 (Z.of_nat (length data)) ->
  projections_ok data_white data ->
  normalize_workers parts dshape (data_white, data_dark, None) data
  = normalize (seqZ 0 (Z.of_nat (length data)), dshape, (data_white, data_dark, None)) data.
Proof.
  intros Hperm Hok.
  rewrite normalize_workers_concat, normalize_without_cutoff.
  apply normalize_loop_permutation; try done.
  - rewrite Hperm. apply NoDup_seqZ.
  - rewrite Hperm. apply Forall_forall. intros m Hm%elem_of_seqZ. lia.
Qed.

End NormalizeFrame.

Lemma normalize_frame_without_cutoff_witness :
  (normalize ([0; -1], (3, 1, 2)%nat, ([[2%Q; 2%Q]], [[0%Q; 0%Q]], None))
     [[[4%Q; 6%Q]]; [[8%Q; 10%Q]]; [[1%Q; 12%Q]]]).1 !! 1%nat
  = Some [[8%Q; 10%Q]].
Proof.
  apply (normalize_frame_without_cutoff (F:=Q) (3, 1, 2)%nat [[2%Q; 2%Q]] [[0%Q; 0%Q]] [0; -1]
           [[[4%Q; 6%Q]]; [[8%Q; 10%Q]]; [[1%Q; 12%Q]]] 1).
  intros m [->|[->|[]%elem_of_nil]%elem_of_cons]%elem_of_cons; by vm_compute.
Defined.

Lemma normalize_workers_without_cutoff_witness :
  normalize_workers [[2; 0]; [1]] (3, 1, 2)%nat ([[2%Q; 2%Q]], [[0%Q; 0%Q]], None)
    [[[4%Q; 6%Q]]; [[8%Q; 10%Q]]; [[1%Q; 12%Q]]]
  = normalize (seqZ 0 3, (3, 1, 2)%nat, ([[2%Q; 2%Q]], [[0%Q; 0%Q]], None))
      [[[4%Q; 6%Q]]; [[8%Q; 10%Q]]; [[1%Q; 12%Q]]].
Proof.
  apply (normalize_workers_without_cutoff (F:=Q) (3, 1, 2)%nat [[2%Q; 2%Q]] [[0%Q; 0%Q]] eq_refl
           [[2; 0]; [1]] [[[4%Q; 6%Q]]; [[8%Q; 10%Q]]; [[1%Q; 12%Q]]]).
  - simpl. change (seqZ 0 3) with [0; 1; 2].
    etrans; [apply Permutation_swap|]. apply perm_skip, Permutation_swap.
  - repeat constructor.
Defined.

(** C2.  The frame property fails when a cutoff is given: the clamp
    [data[data > cutoff] = cutoff] runs over the whole shared array, so a call
    for the partition [[0]] also rewrites projection 1 (its raw value 4 exceeds
    the cutoff 1 and becomes 1). *)
Theorem normalize_cutoff_writes_outside_partition :
  let data : volume Q := [[[4%Q]]; [[4%Q]]] in
  exists data' : volume Q,
    normalize ([0], (2, 1, 1)%nat, ([[2%Q]], [[0%Q]], Some 1%Q)) data = (data', Returned tt)
    /\ (1 ∉ ([0] : list Z))
    /\ data !! 1%nat = Some [[4%Q]]
    /\ data' !! 1%nat = Some [[1%Q]].
Proof.
  exists [[[1%Q]]; [[1%Q]]]. repeat split.
  by intros [= ]%list_elem_of_singleton.
Qed.

(** C3.  With a cutoff the result depends on how the range is split: the
    worker for [[0]] clamps the raw projection 1 before the worker for [[1]]
    divides it, so the two workers leave [1; 1/2] where one call on [[0; 1]]
    leaves [1; 1]; and the two orders of the workers differ as well. *)
Theorem normalize_workers_cutoff_differs :
  let data : volume Q := [[[4%Q]]; [[4%Q]]] in
  normalize_workers [[0]; [1]] (2, 1, 1)%nat ([[2%Q]], [[0%Q]], Some 1%Q) data
    = ([[[1%Q]]; [[(1 # 2)%Q]]], Returned tt)
  /\ normalize_workers [[1]; [0]] (2, 1, 1)%nat ([[2%Q]], [[0%Q]], Some 1%Q) data
    = ([[[(1 # 2)%Q]]; [[1%Q]]], Returned tt)
  /\ normalize ([0; 1], (2, 1, 1)%nat, ([[2%Q]], [[0%Q]], Some 1%Q)) data
    = ([[[1%Q]]; [[1%Q]]], Returned tt)
  /\ concat [[0 : Z]; [1]] = seqZ 0 (Z.of_nat (length data)).
Proof. repeat split. Qed.

(** ** Properties of [optimize_center] and [_costFunc] *)


Section MaskFacts.
Context {F : Type} `{Scalar F}.

Lemma mask_radius_nonneg (data : volume F) : 0 <= mask_radius data.
Proof. unfold mask_radius. apply Z.div_pos; lia. Qed.

Lemma length_circular_mask (data : volume F) (ratio : F) :
  Z.of_nat (length (circular_mask data ratio)) = 2 * mask_radius data.
Proof.
  pose proof (mask_radius_nonneg data).
  unfold circular_mask. rewrite length_fmap, length_seqZ. lia.
Qed.

Lemma rows_circular_mask (data : volume F) (ratio : F) :
  Forall (λ n : nat, Z.of_nat n = 2 * mask_radius data)
         (shape (circular_mask data ratio)).
Proof.
  pose proof (mask_radius_nonneg data).
  unfold shape, circular_mask. apply Forall_fmap, Forall_fmap, Forall_forall.
  intros y _. simpl. rewrite length_fmap, length_seqZ. lia.
Qed.

Lemma pixel_circular_mask (data : volume F) (ratio : F) (i j : nat) (b : bool) :
  pixel (circular_mask data ratio) i j = Some b ->
  b = outside ratio (mask_radius data)
        (Z.of_nat j - mask_radius data) (Z.of_nat i - mask_radius data).
Proof.
  unfold pixel, circular_mask. rewrite list_lookup_fmap.
  destruct (seqZ _ _ !! i) as [y|] eqn:Hy; simpl; [|done].
  rewrite list_lookup_fmap.
  destruct (seqZ _ _ !! j) as [x|] eqn:Hx; simpl; [|done].
  apply lookup_seqZ in Hy as [-> _]. apply lookup_seqZ in Hx as [-> _].
  intros [= <-]. f_equal; lia.
Qed.

Lemma circular_mask_nil (data : volume F) (ratio : F) :
  circular_mask data ratio = [] <-> mask_radius data = 0.
Proof.
  pose proof (mask_radius_nonneg data) as Hrad.
  pose proof (length_circular_mask data ratio) as Hlen.
  split.
  - intros Hnil. rewrite Hnil in Hlen. simpl in Hlen. lia.
  - intros H0. destruct (circular_mask data ratio); [done|]. simpl in Hlen. lia.
Qed.

(** A mask assignment that succeeds either had the empty mask of [rad = 0]
    and changed nothing, or masked the image as [circle_masked] says. *)
Lemma mask_assign_spec (data : volume F) (ratio : F) (a a' : volume F) :
  mask_assign (circular_mask data ratio) a = Returned a' ->
  (mask_radius data = 0 /\ a' = a)
  \/ (0 < mask_radius data /\ circle_masked data ratio a a').
Proof.
  pose proof (mask_radius_nonneg data) as Hrad.
  unfold mask_assign. destruct a as [|img rest]; [done|].
  destruct (circular_mask data ratio) as [|mrow msk] eqn:Hmsk.
  { intros [= <-]. left. split; [|done]. by apply (circular_mask_nil data ratio). }
  assert (Hpos : 0 < mask_radius data).
  { destruct (decide (mask_radius data = 0)) as [H0|]; [|lia].
    apply (circular_mask_nil data ratio) in H0. congruence. }
  rewrite <- Hmsk. case_bool_decide as Hshape; [|done]. intros [= <-].
  right. split; [done|].
  exists img, (zip_with (zip_with (λ (b : bool) (v : F), if b then zero else v))
                 (circular_mask data ratio) img), rest.
  split; [done|]. split; [done|]. split; [|split; [|split]].
  - rewrite shape_zip2 by done. done.
  - rewrite <- length_circular_mask with (ratio := ratio).
    f_equal. apply (f_equal length) in Hshape. unfold shape in Hshape.
    by rewrite !length_fmap in Hshape.
  - pose proof (rows_circular_mask data ratio) as Hrows.
    rewrite <- Hshape in Hrows. unfold shape in Hrows.
    by apply Forall_fmap in Hrows.
  - intros i j v Hv. rewrite pixel_zip2.
    destruct (pixel_same_shape img (circular_mask data ratio) i j) as [b Hb];
      [done|by exists v|].
    rewrite Hb, Hv. simpl. by rewrite (pixel_circular_mask _ _ _ _ _ Hb).
Qed.


End MaskFacts.

Section OptimizeFacts.
Context {F : Type} `{Scalar F} {G : Type}.
Variable Gridrec_init : volume F -> Z -> Z -> Gridrec F G.
Variable reconstruct :
  Gridrec F G -> volume F -> list F -> F -> Z -> outcome (Gridrec F G).
Variable gaussian_filter : volume F -> F -> volume F.
Variable histogram : volume F -> nat -> F * F -> outcome (list Z).
Variable log2 : F -> F.
Variable minimize : F -> F -> minimizer F.

Lemma dot_map (f : F -> F) (l : list F) :
  dot l (f <$> l) = sum_of ((λ p, mul p (f p)) <$> l).
Proof.
  unfold dot. f_equal. induction l as [|p l IH]; csimpl; [done|]. by f_equal.
Qed.

(** The masking block, as a step on the reconstructor object. *)
Lemma apply_mask_unfold (data : volume F) (mask : bool) (ratio : F) (w : world F G) :
  apply_mask data mask ratio w
  = match masked data mask ratio (recon w) with
    | Returned r => ({| recon := r; trace := trace w |}, Returned tt)
    | Raised e => (w, Raised e)
    end.
Proof.
  unfold apply_mask, masked. destruct mask.
  - unfold bind, get_recon, lift, put_recon.
    by destruct (mask_assign _ _).
  - unfold ret. by destruct w.
Qed.

(** [initialize], step by step. *)
Lemma initialize_unfold (data : volume F) (theta : list F) (slice_no : Z)
    (center_init : F) (mask : bool) (ratio : F) (w : world F G) :
  initialize reconstruct data theta slice_no center_init mask ratio w
  = let t := trace w ++ [Reconstruct center_init slice_no] in
    match reconstruct (recon w) data theta center_init slice_no with
    | Raised e => ({| recon := recon w; trace := t |}, Raised e)
    | Returned r1 =>
      match masked data mask ratio r1 with
      | Raised e => ({| recon := r1; trace := t |}, Raised e)
      | Returned r2 =>
        ({| recon := r2; trace := t |}, hist_limits (data_recon r2))
      end
    end.
Proof.
  unfold initialize, call_reconstruct.
  unfold bind at 1 2 3 4. unfold emit at 1. unfold get_recon at 1. unfold lift at 1. simpl.
  destruct (reconstruct (recon w) data theta center_init slice_no) as [r1|e]; [|done].
  unfold put_recon. simpl. unfold bind. rewrite apply_mask_unfold. simpl.
  by destruct (masked data mask ratio r1).
Qed.

(** [_costFunc], step by step. *)
Lemma costFunc_unfold (center : F) (data : volume F) (theta : list F)
    (slice_no : Z) (hist_min hist_max : F) (mask : bool) (ratio : F)
    (w : world F G) :
  _costFunc reconstruct gaussian_filter histogram log2
    center data theta slice_no hist_min hist_max mask ratio w
  = let t := trace w ++ [Trying center; Reconstruct (float32 center) slice_no] in
    match reconstruct (recon w) data theta (float32 center) slice_no with
    | Raised e => ({| recon := recon w; trace := t |}, Raised e)
    | Returned r1 =>
      match masked data mask ratio r1 with
      | Raised e => ({| recon := r1; trace := t |}, Raised e)
      | Returned r2 =>
        let w1 := {| recon := r2; trace := t ++ [Histogram 64 hist_min hist_max] |} in
        match histogram (gaussian_filter (data_recon r2) two) 64 (hist_min, hist_max) with
        | Raised e => (w1, Raised e)
        | Returned counts =>
          (w1, Returned (entropy_score log2 (size (data_recon r2)) counts))
        end
      end
    end.
Proof.
  unfold _costFunc, call_reconstruct, call_histogram.
  unfold bind at 1 2 3 4 5. unfold emit at 1 2. unfold get_recon at 1. unfold lift at 1. simpl.
  rewrite <- app_assoc. simpl.
  destruct (reconstruct (recon w) data theta (float32 center) slice_no) as [r1|e]; [|done].
  unfold put_recon. simpl. unfold bind at 1. rewrite apply_mask_unfold. simpl.
  destruct (masked data mask ratio r1) as [r2|e]; [|done].
  unfold bind, get_recon, emit, lift, ret. simpl.
  destruct (histogram _ _ _) as [counts|e]; [|done].
  unfold entropy_score. by rewrite dot_map, <- list_fmap_compose.
Qed.

End OptimizeFacts.

(** *** The histogram range *)

Lemma hist_limits_rule {F : Type} `{ScalarOrder F} (a : volume F) (range : F * F) :
  hist_limits a = Returned range ->
  exists mn mx : F,
    np_min a = Returned mn /\ np_max a = Returned mx
    /\ range.1 = (if ltb mn zero then mul two mn else mul half mn)
    /\ range.2 = (if ltb mx zero then mul half mx else mul two mx).
Proof.
  unfold hist_limits.
  destruct (np_min a) as [mn|e]; [|done]. destruct (np_max a) as [mx|e]; [|done].
  intros [= <-]. exists mn, mx. split; [done|]. split; [done|].
  unfold widen_min, widen_max. simpl. rewrite !geb_ltb.
  by destruct (ltb mn zero), (ltb mx zero).
Qed.

(** What a float that is neither [< 0] nor [>= 0] is. *)
Lemma float_incomparable_nan (x : float) :
  PrimFloat.ltb x 0%float = false -> PrimFloat.leb 0%float x = false -> x = nan.
Proof.
  rewrite ltb_spec, leb_spec. intros Hlt Hle.
  rewrite <- (SF2Prim_Prim2SF x).
  change (Prim2SF 0%float) with (S754_zero false) in *.
  destruct (Prim2SF x) as [s|s| |s m e]; try reflexivity.
  - discriminate Hle.
  - destruct s; [discriminate Hlt | discriminate Hle].
  - destruct s; [discriminate Hlt | discriminate Hle].
Qed.

(** On floats the two tests of each [if]/[elif] leave out the NaN only, and
    half a NaN is the NaN: the rule has two branches. *)
Lemma widen_float (x : float) :
  widen_min x = (if ltb x zero then mul two x else mul half x)
  /\ widen_max x = (if ltb x zero then mul half x else mul two x).
Proof.
  unfold widen_min, widen_max. simpl.
  destruct (PrimFloat.ltb x 0) eqn:Hlt; [done|].
  destruct (PrimFloat.leb 0 x) eqn:Hle; [done|].
  by rewrite (float_incomparable_nan x Hlt Hle).
Qed.

(** A returning initialisation reconstructed at [center_init], masked, and
    took the range from what it left in the reconstructor object. *)
Lemma initialize_inv {F G : Type} `{Scalar F}
    (reconstruct : Gridrec F G -> volume F -> list F -> F -> Z -> outcome (Gridrec F G))
    (data : volume F) (theta : list F) (slice_no : Z) (center_init : F)
    (mask : bool) (ratio : F) (w w1 : world F G) (range : F * F) :
  initialize reconstruct data theta slice_no center_init mask ratio w
    = (w1, Returned range) ->
  exists (r1 : Gridrec F G) (mn mx : F),
    reconstruct (recon w) data theta center_init slice_no = Returned r1
    /\ masked data mask ratio r1 = Returned (recon w1)
    /\ np_min (data_recon (recon w1)) = Returned mn
    /\ np_max (data_recon (recon w1)) = Returned mx
    /\ range = (widen_min mn, widen_max mx).
Proof.
  rewrite initialize_unfold. cbv zeta.
  destruct (reconstruct _ _ _ _ _) as [r1|e]; [|done].
  destruct (masked data mask ratio r1) as [r2|e] eqn:Hm; [|done].
  intros [= <- Hlim]. simpl. unfold hist_limits in Hlim.
  destruct (np_min (data_recon r2)) as [mn|e]; [|done].
  destruct (np_max (data_recon r2)) as [mx|e]; [|done].
  injection Hlim as <-. by exists r1, mn, mx.
Qed.

(** C4.  When the initialisation of [optimize_center] returns the range
    [[hist_min, hist_max]], it has reconstructed at [center_init], applied
    the mask when asked to, and taken the extrema [min], [max] of what this
    left: [hist_min] is [2 * min] when [min < 0] and [0.5 * min] when
    [min >= 0], [hist_max] is [0.5 * max] when [max < 0] and [2 * max] when
    [max >= 0] (a value that is neither, a NaN, is kept).  On IEEE floats
    this is the two-branch rule without condition, and with [min = -4],
    [max = 10] the range is [[-8, 20]]. *)
Theorem optimize_center_hist_range :
  (forall (F G : Type) (SF : Scalar F)
      (reconstruct : Gridrec F G -> volume F -> list F -> F -> Z -> outcome (Gridrec F G))
      (data : volume F) (theta : list F) (slice_no : Z) (center_init : F)
      (mask : bool) (ratio : F) (w w1 : world F G) (hist_min hist_max : F),
    initialize reconstruct data theta slice_no center_init mask ratio w
      = (w1, Returned (hist_min, hist_max)) ->
    exists (r1 : Gridrec F G) (mn mx : F),
      reconstruct (recon w) data theta center_init slice_no = Returned r1
      /\ masked data mask ratio r1 = Returned (recon w1)
      /\ np_min (data_recon (recon w1)) = Returned mn
      /\ np_max (data_recon (recon w1)) = Returned mx
      /\ hist_min = (if ltb mn zero then mul two mn
                     else if geb mn zero then mul half mn else mn)
      /\ hist_max = (if ltb mx zero then mul half mx
                     else if geb mx zero then mul two mx else mx))
  /\ (forall (G : Type)
      (reconstruct : Gridrec float G -> volume float -> list float -> float -> Z
                     -> outcome (Gridrec float G))
      (data : volume float) (theta : list float) (slice_no : Z) (center_init : float)
      (mask : bool) (ratio : float) (w w1 : world float G) (hist_min hist_max : float),
    initialize reconstruct data theta slice_no center_init mask ratio w
      = (w1, Returned (hist_min, hist_max)) ->
    exists (r1 : Gridrec float G) (mn mx : float),
      reconstruct (recon w) data theta center_init slice_no = Returned r1
      /\ masked data mask ratio r1 = Returned (recon w1)
      /\ np_min (data_recon (recon w1)) = Returned mn
      /\ np_max (data_recon (recon w1)) = Returned mx
      /\ hist_min = (if ltb mn zero then mul two mn else mul half mn)
      /\ hist_max = (if ltb mx zero then mul half mx else mul two mx)
      /\ (mn = (-4)%float -> mx = 10%float ->
          hist_min = (-8)%float /\ hist_max = 20%float))
  /\ (forall (G : Type)
      (reconstruct : Gridrec Q G -> volume Q -> list Q -> Q -> Z -> outcome (Gridrec Q G))
      (data : volume Q) (theta : list Q) (slice_no : Z) (center_init : Q)
      (mask : bool) (ratio : Q) (w w1 : world Q G) (hist_min hist_max : Q),
    initialize reconstruct data theta slice_no center_init mask ratio w
      = (w1, Returned (hist_min, hist_max)) ->
    np_min (data_recon (recon w1)) = Returned (-4)%Q ->
    np_max (data_recon (recon w1)) = Returned 10%Q ->
    (exists r1 : Gridrec Q G,
        reconstruct (recon w) data theta center_init slice_no = Returned r1
        /\ masked data mask ratio r1 = Returned (recon w1))
    /\ hist_min = (-8)%Q /\ hist_max = 20%Q).
Proof.
  split; [|split].
  - intros F G SF reconstruct data theta slice_no center_init mask ratio w w1
      hist_min hist_max Hrun.
    apply initialize_inv in Hrun as (r1 & mn & mx & Hr & Hm & Hmn & Hmx & [= -> ->]).
    by exists r1, mn, mx.
  - intros G reconstruct data theta slice_no center_init mask ratio w w1
      hist_min hist_max Hrun.
    apply initialize_inv in Hrun as (r1 & mn & mx & Hr & Hm & Hmn & Hmx & [= -> ->]).
    exists r1, mn, mx. destruct (widen_float mn) as [-> _].
    destruct (widen_float mx) as [_ ->].
    repeat (split; [done|]). by intros -> ->.
  - intros G reconstruct data theta slice_no center_init mask ratio w w1
      hist_min hist_max Hrun Hmin Hmax.
    apply initialize_inv in Hrun as (r1 & mn & mx & Hr & Hm & Hmn & Hmx & [= -> ->]).
    rewrite Hmin in Hmn. rewrite Hmax in Hmx.
    injection Hmn as <-. injection Hmx as <-.
    split; [by exists r1|]. done.
Qed.

Lemma optimize_center_hist_range_witness :
  ((exists r1 : Gridrec Q unit,
       Phantom.reconstruct (recon Phantom.start) Phantom.data [] 7%Q 0 = Returned r1
       /\ masked Phantom.data false (1 # 2)%Q r1
          = Returned (recon (Phantom.after 7%Q None [Reconstruct 7%Q 0])))
   /\ widen_min (-4)%Q = (-8)%Q /\ widen_max 10%Q = 20%Q)
  /\ exists (r1 : Gridrec Q unit) (mn mx : Q),
       Phantom.reconstruct (recon Phantom.start) Phantom.data [] 7%Q 0 = Returned r1
       /\ masked Phantom.data true (1 # 2)%Q r1
          = Returned (recon (Phantom.after 7%Q (Some (1 # 2)%Q) [Reconstruct 7%Q 0]))
       /\ np_min (Phantom.masked_image 7%Q (Some (1 # 2)%Q)) = Returned mn
       /\ np_max (Phantom.masked_image 7%Q (Some (1 # 2)%Q)) = Returned mx
       /\ 0%Q = (if ltb mn zero then mul two mn
                 else if geb mn zero then mul half mn else mn)
       /\ 20%Q = (if ltb mx zero then mul half mx
                  else if geb mx zero then mul two mx else mx).
Proof.
  split.
  - apply (proj2 (proj2 optimize_center_hist_range) unit Phantom.reconstruct
             Phantom.data [] 0 7%Q false (1 # 2)%Q Phantom.start
             (Phantom.after 7%Q None [Reconstruct 7%Q 0])
             (widen_min (-4)%Q) (widen_max 10%Q)); reflexivity.
  - apply (proj1 optimize_center_hist_range Q unit _ Phantom.reconstruct Phantom.data
             [] 0 7%Q true (1 # 2)%Q Phantom.start
             (Phantom.after 7%Q (Some (1 # 2)%Q) [Reconstruct 7%Q 0]) 0%Q 20%Q).
    reflexivity.
Defined.

(** *** The objective function *)

Section Objective.
Context {F : Type} `{Scalar F} {G : Type}.
Variable reconstruct :
  Gridrec F G -> volume F -> list F -> F -> Z -> outcome (Gridrec F G).
Variable gaussian_filter : volume F -> F -> volume F.
Variable histogram : volume F -> nat -> F * F -> outcome (list Z).
Variable log2 : F -> F.

(** C5.  The objective returns a score exactly when the reconstruction at
    the candidate centre, the optional mask and the 64-bucket histogram of
    the smoothed (sigma 2) masked reconstruction over [[hist_min, hist_max]]
    go through, and the score is then [- sum p * log2 p] over the 64 buckets,
    with [p] the bucket count divided by the number of pixels of the
    reconstruction, plus [1e-12]. *)
Theorem costFunc_score (center : F) (data : volume F) (theta : list F)
    (slice_no : Z) (hist_min hist_max : F) (mask : bool) (ratio : F)
    (w w1 : world F G) (score : F) :
  (forall (a : volume F) (bins : nat) (range : F * F) (h : list Z),
      histogram a bins range = Returned h -> length h = bins) ->
  _costFunc reconstruct gaussian_filter histogram log2
    center data theta slice_no hist_min hist_max mask ratio w
    = (w1, Returned score)
  <-> exists (r1 : Gridrec F G) (counts : list Z),
        reconstruct (recon w) data theta (float32 center) slice_no = Returned r1
        /\ masked data mask ratio r1 = Returned (recon w1)
        /\ histogram (gaussian_filter (data_recon (recon w1)) two) 64
             (hist_min, hist_max) = Returned counts
        /\ length counts = 64%nat
        /\ trace w1 = trace w ++ [Trying center; Reconstruct (float32 center) slice_no;
                                  Histogram 64 hist_min hist_max]
        /\ score
           = neg (sum_of
                    ((λ count : Z,
                        let p := add (div (float32 (of_Z count))
                                          (of_Z (Z.of_nat (size (data_recon (recon w1))))))
                                     tiny in
                        mul p (log2 p)) <$> counts)).
Proof.
  intros Hbins. rewrite costFunc_unfold. simpl. split.
  - destruct (reconstruct _ _ _ _ _) as [r1|e]; [|done].
    destruct (masked _ _ _ _) as [r2|e] eqn:Hm; [|done].
    destruct (histogram _ _ _) as [counts|e] eqn:Hh; [|done].
    intros [= <- <-]. exists r1, counts. simpl.
    split; [done|]. split; [done|]. split; [done|].
    split; [by eapply Hbins|]. split; [by rewrite <- app_assoc|done].
  - intros (r1 & counts & -> & -> & -> & _ & Ht & ->).
    f_equal. destruct w1 as [r2 t]. simpl in *. f_equal.
    by rewrite Ht, <- app_assoc.
Qed.


End Objective.

Lemma Phantom_histogram_bins (a : volume Q) (bins : nat) (range : Q * Q) (h : list Z) :
  Phantom.histogram a bins range = Returned h -> length h = bins.
Proof.
  unfold Phantom.histogram. destruct range as [lo hi].
  destruct (negb (Qle_bool lo hi)); [done|].
  destruct (Qle_bool hi lo); intros [= <-];
    rewrite length_fmap, length_seqZ; lia.
Qed.

Lemma costFunc_score_witness :
  let w1 := Phantom.after 7%Q (Some (1 # 2)%Q)
              [Trying 7%Q; Reconstruct 7%Q 0; Histogram 64 0%Q 20%Q] in
  exists (r1 : Gridrec Q unit) (counts : list Z),
    Phantom.reconstruct (recon Phantom.start) Phantom.data [] (float32 7%Q) 0 = Returned r1
    /\ masked Phantom.data true (1 # 2)%Q r1 = Returned (recon w1)
    /\ Phantom.histogram (Phantom.gaussian_filter (data_recon (recon w1)) two) 64
         (0%Q, 20%Q) = Returned counts
    /\ length counts = 64%nat
    /\ trace w1 = trace Phantom.start
                  ++ [Trying 7%Q; Reconstruct (float32 7%Q) 0; Histogram 64 0%Q 20%Q]
    /\ Phantom.score_at 7%Q (Some (1 # 2)%Q) 0%Q 20%Q
       = neg (sum_of
                ((λ count : Z,
                    let p := add (div (float32 (of_Z count))
                                      (of_Z (Z.of_nat (size (data_recon (recon w1))))))
                                 tiny in
                    mul p (Phantom.log2 p)) <$> counts)).
Proof.
  apply (proj1 (costFunc_score Phantom.reconstruct Phantom.gaussian_filter
                  Phantom.histogram Phantom.log2 7%Q Phantom.data [] 0 0%Q 20%Q
                  true (1 # 2)%Q Phantom.start _ _ Phantom_histogram_bins)).
  vm_compute. reflexivity.
Defined.





(** *** The search *)

Section Search.
Context {F : Type} `{Scalar F} {G : Type}.
Variable Gridrec_init : volume F -> Z -> Z -> Gridrec F G.
Variable reconstruct :
  Gridrec F G -> volume F -> list F -> F -> Z -> outcome (Gridrec F G).
Variable gaussian_filter : volume F -> F -> volume F.
Variable histogram : volume F -> nat -> F * F -> outcome (list Z).
Variable log2 : F -> F.

Lemma appends_weaken {A} (P Q : event F -> Prop) (m : M F G A) :
  (forall e, P e -> Q e) -> appends P m -> appends Q m.
Proof.
  intros HPQ Hm w. destruct (Hm w) as (evs & Ht & Hevs).
  exists evs. split; [done|]. by eapply Forall_impl.
Qed.

Lemma costFunc_appends (center : F) (data : volume F) (theta : list F)
    (slice_no : Z) (hist_min hist_max : F) (mask : bool) (ratio : F) :
  appends (range_is hist_min hist_max)
    (_costFunc reconstruct gaussian_filter histogram log2
       center data theta slice_no hist_min hist_max mask ratio).
Proof.
  intros w. rewrite costFunc_unfold. cbv zeta.
  destruct (reconstruct _ _ _ _ _) as [r1|e];
    [|by eexists; split; [done|repeat constructor]].
  destruct (masked data mask ratio r1) as [r2|e];
    [|by eexists; split; [done|repeat constructor]].
  destruct (histogram _ _ _) as [counts|e]; simpl; rewrite <- app_assoc;
    (eexists; split; [done|repeat constructor]).
Qed.

Lemma run_minimizer_appends (P : event F -> Prop) (fn : F -> M F G F)
    (m : minimizer F) :
  (forall x : F, appends P (fn x)) ->
  (forall x s : F, P (Objective x s)) ->
  appends P (run_minimizer fn m).
Proof.
  intros Hfn HP. induction m as [res|x k IH]; intros w; simpl.
  - exists []. by rewrite app_nil_r.
  - unfold bind at 1. destruct (Hfn x w) as (evs & Ht & Hevs).
    destruct (fn x w) as [w1 [s|e]]; simpl in *; [|by exists evs].
    unfold bind, emit. simpl.
    destruct (IH s {| recon := recon w1; trace := trace w1 ++ [Objective x s] |})
      as (evs' & Ht' & Hevs').
    exists (evs ++ [Objective x s] ++ evs'). simpl in Ht'. rewrite Ht', Ht.
    split; [by rewrite <- !app_assoc|].
    apply Forall_app. split; [done|]. apply Forall_cons. by split.
Qed.

(** The search depends on the objective through its values only. *)
Lemma run_minimizer_ext (fn1 fn2 : F -> M F G F) (m : minimizer F) (w : world F G) :
  (forall (x : F) (w' : world F G), fn1 x w' = fn2 x w') ->
  run_minimizer fn1 m w = run_minimizer fn2 m w.
Proof.
  intros Hfn. revert w. induction m as [res|x k IH]; intros w; simpl; [done|].
  unfold bind. rewrite Hfn. destruct (fn2 x w) as [w1 [s|e]]; [|done].
  simpl. apply IH.
Qed.


Variable minimize : F -> F -> minimizer F.

(** [optimize_center], step by step. *)
Lemma optimize_center_unfold (data : volume F) (theta : list F) (slice_no : Z)
    (center_init tol : F) (mask : bool) (ratio : F) :
  optimize_center Gridrec_init reconstruct gaussian_filter histogram log2 minimize
    data theta slice_no center_init tol mask ratio
  = match initialize reconstruct data theta slice_no center_init mask ratio
            {| recon := Gridrec_init data 20 10; trace := [] |} with
    | (w1, Raised e) => (trace w1, Raised e)
    | (w1, Returned range) =>
      match run_minimizer
              (λ center, _costFunc reconstruct gaussian_filter histogram log2
                           center data theta slice_no range.1 range.2 mask ratio)
              (minimize center_init tol) w1 with
      | (w2, Raised e) => (trace w2, Raised e)
      | (w2, Returned res) =>
        (trace w2 ++ [Calculated (res_x res)], Returned (res_x res))
      end
    end.
Proof.
  unfold optimize_center, optimize_center_body. unfold bind at 1.
  destruct (initialize _ _ _ _ _ _ _ _) as [w1 [range|e]]; [|done].
  unfold bind at 1. destruct (run_minimizer _ _ _) as [w2 [res|e]]; [|done].
  done.
Qed.

(** C7.  The range [[hist_min, hist_max]] is the one computed from the
    reconstruction [initialize] leaves behind, and every call of
    [np.histogram] in the run, that is every evaluation of the objective,
    uses 64 bins over this same range; when the initialisation raises, no
    histogram is taken at all. *)
Theorem hist_range_frozen (data : volume F) (theta : list F) (slice_no : Z)
    (center_init tol : F) (mask : bool) (ratio : F) :
  let run := optimize_center Gridrec_init reconstruct gaussian_filter histogram
               log2 minimize data theta slice_no center_init tol mask ratio in
  match initialize reconstruct data theta slice_no center_init mask ratio
          {| recon := Gridrec_init data 20 10; trace := [] |} with
  | (w1, Returned (hist_min, hist_max)) =>
    hist_limits (data_recon (recon w1)) = Returned (hist_min, hist_max)
    /\ Forall (range_is hist_min hist_max) run.1
  | (w1, Raised e) => Forall no_histogram run.1
  end.
Proof.
  intros run. subst run. rewrite optimize_center_unfold.
  pose proof (initialize_unfold reconstruct data theta slice_no center_init mask ratio
                {| recon := Gridrec_init data 20 10; trace := [] |}) as Hinit.
  cbv zeta in Hinit. simpl in Hinit.
  destruct (initialize _ _ _ _ _ _ _ _) as [w1 [[hist_min hist_max]|e]].
  - assert (Hw1 : trace w1 = [Reconstruct center_init slice_no]
                  /\ hist_limits (data_recon (recon w1)) = Returned (hist_min, hist_max)).
    { destruct (reconstruct _ _ _ _ _) as [r1|e]; [|by injection Hinit].
      destruct (masked data mask ratio r1) as [r2|e]; [|by injection Hinit].
      injection Hinit as -> Hlim. done. }
    destruct Hw1 as [Ht Hlim]. split; [done|].
    destruct (run_minimizer_appends (range_is hist_min hist_max)
                (λ center, _costFunc reconstruct gaussian_filter histogram log2
                             center data theta slice_no hist_min hist_max mask ratio)
                (minimize center_init tol)
                (λ x, costFunc_appends x data theta slice_no hist_min hist_max mask ratio)
                (λ _ _, I) w1) as (evs & Hevs & Hall).
    simpl. destruct (run_minimizer _ _ _) as [w2 [res|e]]; simpl in *.
    + rewrite Hevs, Ht. apply Forall_app. split; [|by repeat constructor].
      apply Forall_cons. by split.
    + rewrite Hevs, Ht. apply Forall_cons. by split.
  - simpl.
    destruct (reconstruct _ _ _ _ _) as [r1|e'].
    + destruct (masked data mask ratio r1) as [r2|e'].
      * injection Hinit as -> Hlim. by repeat constructor.
      * injection Hinit as -> _. by repeat constructor.
    + injection Hinit as -> _. by repeat constructor.
Qed.

End Search.

Section Driver.
Context {F : Type} `{Scalar F} {G : Type}.
Variable Gridrec_init : volume F -> Z -> Z -> Gridrec F G.
Variable reconstruct :
  Gridrec F G -> volume F -> list F -> F -> Z -> outcome (Gridrec F G).
Variable gaussian_filter : volume F -> F -> volume F.
Variable histogram : volume F -> nat -> F * F -> outcome (list Z).
Variable log2 : F -> F.
Variable minimize : F -> F -> minimizer F.

(** C8, as the code has it.  [optimize_center] checks neither the tolerance
    nor the mask ratio: whatever they are, the first thing it does is the
    initial reconstruction at [center_init]. *)
Theorem optimize_center_starts_with_reconstruction (data : volume F)
    (theta : list F) (slice_no : Z) (center_init tol : F) (mask : bool) (ratio : F) :
  exists rest : list (event F),
    (optimize_center Gridrec_init reconstruct gaussian_filter histogram log2 minimize
       data theta slice_no center_init tol mask ratio).1
    = Reconstruct center_init slice_no :: rest.
Proof.
  rewrite optimize_center_unfold.
  pose proof (initialize_unfold reconstruct data theta slice_no center_init mask ratio
                {| recon := Gridrec_init data 20 10; trace := [] |}) as Hinit.
  cbv zeta in Hinit. simpl in Hinit.
  assert (Ht : trace (initialize reconstruct data theta slice_no center_init mask ratio
                        {| recon := Gridrec_init data 20 10; trace := [] |}).1
               = [Reconstruct center_init slice_no]).
  { rewrite Hinit. destruct (reconstruct _ _ _ _ _) as [r1|e]; [|done].
    by destruct (masked data mask ratio r1). }
  destruct (initialize _ _ _ _ _ _ _ _) as [w1 [range|e]]; simpl in Ht.
  - destruct (run_minimizer_appends (λ _, True)
                (λ center, _costFunc reconstruct gaussian_filter histogram log2
                             center data theta slice_no range.1 range.2 mask ratio)
                (minimize center_init tol)) with (w := w1) as (evs & Hevs & _).
    + intros x. eapply appends_weaken; [|apply costFunc_appends]. done.
    + done.
    + destruct (run_minimizer _ _ _) as [w2 [res|e]]; simpl in *;
        rewrite Hevs, Ht; eexists; reflexivity.
  - exists []. by rewrite Ht.
Qed.


(** C10.  Without the mask the ratio is not used: two calls that differ in
    the ratio alone print, evaluate and return the same, and so does every
    evaluation of the objective. *)
Theorem ratio_unused_without_mask (data : volume F) (theta : list F)
    (slice_no : Z) (center_init tol : F) (ratio1 ratio2 : F) :
  optimize_center Gridrec_init reconstruct gaussian_filter histogram log2 minimize
    data theta slice_no center_init tol false ratio1
  = optimize_center Gridrec_init reconstruct gaussian_filter histogram log2 minimize
      data theta slice_no center_init tol false ratio2
  /\ forall (center hist_min hist_max : F) (w : world F G),
       _costFunc reconstruct gaussian_filter histogram log2
         center data theta slice_no hist_min hist_max false ratio1 w
       = _costFunc reconstruct gaussian_filter histogram log2
           center data theta slice_no hist_min hist_max false ratio2 w.
Proof.
  assert (Hcost : forall (center hist_min hist_max : F) (w : world F G),
       _costFunc reconstruct gaussian_filter histogram log2
         center data theta slice_no hist_min hist_max false ratio1 w
       = _costFunc reconstruct gaussian_filter histogram log2
           center data theta slice_no hist_min hist_max false ratio2 w).
  { intros center hist_min hist_max w. by rewrite !costFunc_unfold. }
  split; [|done].
  rewrite !optimize_center_unfold, !initialize_unfold. cbv zeta. simpl.
  destruct (reconstruct _ _ _ _ _) as [r1|e]; [|done].
  destruct (hist_limits (data_recon r1)) as [range|e]; [|done].
  by rewrite (run_minimizer_ext _ _ _ _ (λ x w', Hcost x range.1 range.2 w')).
Qed.

End Driver.

(** C8, as the specification states it, fails: with tolerance [-1] and mask
    ratio [0] (mask set) nothing is rejected; the function reconstructs three
    times, scores images that are zero but for the centre pixel, and returns
    the centre 7. *)
Lemma optimize_center_accepts_invalid_configuration :
  optimize_center Phantom.Gridrec_init Phantom.reconstruct Phantom.gaussian_filter
    Phantom.histogram Phantom.log2 Phantom.minimize
    Phantom.data [] 0 7%Q (-1)%Q true 0%Q
  = ([Reconstruct 7%Q 0;
      Trying 7%Q; Reconstruct 7%Q 0; Histogram 64 0%Q 18%Q;
      Objective 7%Q (125000001211 # 500000000000)%Q;
      Trying 8%Q; Reconstruct 8%Q 0; Histogram 64 0%Q 18%Q;
      Objective 8%Q (125000001211 # 500000000000)%Q;
      Calculated 7%Q],
     Returned 7%Q)
  /\ Phantom.masked_image 7%Q (Some 0%Q)
     = [[[0; 0; 0; 0]; [0; 0; 0; 0]; [0; 0; 9; 0]; [0; 0; 0; 0]]]%Q.
Proof. split; vm_compute; reflexivity. Qed.


(** ** The same code on IEEE floats *)

(** The model runs on the kernel's binary64 floats as well.  The histogram
    range of the specification's example: *)
Example hist_limits_float_example :
  hist_limits [[[(-4)%float; 10%float]; [0.5%float; 3%float]]]
  = Returned ((-8)%float, 20%float).
Proof. reflexivity. Qed.

(** Where a white and a dark pixel coincide the quotient [0/0] is a NaN, and
    [data > cutoff] is false for it: the NaN stays in the array (while the raw
    value 3 of the other projection is clamped).  This is why the bound
    [<= cutoff] is stated for elements with the order of ordinary numbers. *)
Example normalize_float_nan_example :
  normalize ([0], (2, 1, 1)%nat, ([[2%float]], [[2%float]], Some 1%float))
    [[[2%float]]; [[3%float]]]
  = ([[[nan]]; [[1%float]]], Returned tt).
Proof. reflexivity. Qed.

(** ** Further properties of [normalize] *)

Section NormalizeMore.
Context {F : Type} `{Scalar F}.

Lemma normalize_projection_shape (data_white data_dark proj q : frame F) :
  normalize_projection data_white data_dark proj = Returned q ->
  shape q = shape proj.
Proof.
  unfold normalize_projection, elementwise.
  case_bool_decide as Hnum; [|done]. case_bool_decide as Hden; [|done].
  case_bool_decide as Hdiv; [|done]. intros [= <-].
  rewrite shape_zip2 by done. by rewrite shape_zip2.
Qed.

Lemma shape_clamp_all (c : F) (data : volume F) :
  shape <$> clamp_all c data = shape <$> data.
Proof.
  unfold clamp_all. rewrite <- list_fmap_compose. apply list_fmap_ext.
  intros _ p _. simpl. unfold shape. rewrite <- list_fmap_compose.
  apply list_fmap_ext. intros _ row _. simpl. apply length_fmap.
Qed.

Lemma normalize_loop_shape (data_white data_dark : frame F) (ind : list Z)
    (data : volume F) :
  shape <$> (normalize_loop data_white data_dark ind data).1 = shape <$> data.
Proof.
  revert data. induction ind as [|m ind IH]; intros data; simpl; [done|].
  destruct (resolve_index (length data) m) as [i|]; [|done].
  destruct (data !! i) as [proj|] eqn:Hproj; [|done].
  destruct (normalize_projection data_white data_dark proj) as [q|e] eqn:Hq; [|done].
  rewrite IH, list_fmap_insert. apply list_insert_id.
  rewrite list_lookup_fmap, Hproj. simpl. f_equal.
  symmetry. by eapply normalize_projection_shape.
Qed.

(** X3.  Whatever its arguments are and whether it returns or raises,
    [normalize] leaves the shape of the shared array as it was: the same
    number of projections, and every projection with its rows of the same
    lengths. *)
Theorem normalize_keeps_shape
    (args : list Z * (nat * nat * nat) * (frame F * frame F * option F))
    (data : volume F) :
  shape <$> (normalize args data).1 = shape <$> data.
Proof.
  destruct args as [[ind dshape] [[data_white data_dark] cutoff]].
  unfold normalize, tonumpyarray.
  pose proof (normalize_loop_shape data_white data_dark ind data) as Hloop.
  destruct (normalize_loop data_white data_dark ind data) as [data1 [[]|e]];
    simpl in *; [|done].
  destruct cutoff as [c|]; simpl; [|done]. by rewrite shape_clamp_all.
Qed.

(** X4.  For any arithmetic in which the cutoff does not exceed itself, and
    for any partition and frames: when a call with a cutoff returns, no value
    anywhere in the shared array exceeds the cutoff. *)
Theorem normalize_nothing_above_cutoff (ind : list Z) (dshape : nat * nat * nat)
    (data_white data_dark : frame F) (c : F) (data data' : volume F) :
  gtb c c = false ->
  normalize (ind, dshape, (data_white, data_dark, Some c)) data
    = (data', Returned tt) ->
  forall (i r k : nat) (v : F), cell data' i r k = Some v -> gtb v c = false.
Proof.
  intros Hc. unfold normalize, tonumpyarray.
  destruct (normalize_loop data_white data_dark ind data) as [data1 [[]|e]]; [|done].
  intros [= <-] i r k v. rewrite cell_clamp_all.
  destruct (cell data1 i r k) as [u|]; [|done]. simpl. intros [= <-].
  unfold clamp. by destruct (gtb u c) eqn:Hu.
Qed.

(** X5.  When a call with a cutoff returns, every projection that none of
    the partition's indices resolves to has been clamped all the same: its
    values above the cutoff are replaced by the cutoff, the others kept. *)
Theorem normalize_clamps_outside_partition (ind : list Z)
    (dshape : nat * nat * nat) (data_white data_dark : frame F) (c : F)
    (data data' : volume F) (i : nat) :
  normalize (ind, dshape, (data_white, data_dark, Some c)) data
    = (data', Returned tt) ->
  (forall m : Z, m ∈ ind -> resolve_index (length data) m ≠ Some i) ->
  forall r k : nat, cell data' i r k = clamp c <$> cell data i r k.
Proof.
  unfold normalize, tonumpyarray. intros Hrun Hout r k.
  pose proof (normalize_loop_frame data_white data_dark ind data i Hout) as [Hget _].
  destruct (normalize_loop data_white data_dark ind data) as [data1 [[]|e]]; [|done].
  injection Hrun as <-. rewrite cell_clamp_all. simpl in Hget.
  unfold cell. by rewrite Hget.
Qed.

(** X6.  Without a cutoff two calls compose: a call on [ind1 ++ ind2] does
    what a call on [ind1] followed, when that one returns, by a call on
    [ind2] does, for any inputs (also with repeated or out-of-range indices,
    and in what is raised). *)
Theorem normalize_app_without_cutoff (ind1 ind2 : list Z)
    (dshape : nat * nat * nat) (data_white data_dark : frame F) (data : volume F) :
  normalize (ind1 ++ ind2, dshape, (data_white, data_dark, None)) data
  = match normalize (ind1, dshape, (data_white, data_dark, None)) data with
    | (data1, Raised e) => (data1, Raised e)
    | (data1, Returned _) =>
      normalize (ind2, dshape, (data_white, data_dark, None)) data1
    end.
Proof.
  rewrite !(normalize_without_cutoff dshape), normalize_loop_app.
  destruct (normalize_loop data_white data_dark ind1 data) as [data1 [[]|e]]; [|done].
  by rewrite (normalize_without_cutoff dshape).
Qed.

(** X7.  An index outside [-num_projections, num_projections) makes the call
    raise [IndexError] when the loop reaches it: the projections listed
    before it stay normalized in the shared array, those listed after it are
    not touched, and the cutoff is not applied. *)
Theorem normalize_index_out_of_range (ind1 ind2 : list Z) (m : Z)
    (dshape : nat * nat * nat) (data_white data_dark : frame F)
    (cutoff : option F) (data data1 : volume F) :
  normalize_loop data_white data_dark ind1 data = (data1, Returned tt) ->
  ¬ (- Z.of_nat (length data) <= m < Z.of_nat (length data)) ->
  normalize (ind1 ++ m :: ind2, dshape, (data_white, data_dark, cutoff)) data
  = (data1, Raised IndexError).
Proof.
  intros Hloop Hm. unfold normalize, tonumpyarray.
  rewrite normalize_loop_app, Hloop.
  assert (Hlen : length data1 = length data).
  { pose proof (normalize_loop_shape data_white data_dark ind1 data) as Hshape.
    rewrite Hloop in Hshape. apply (f_equal length) in Hshape.
    by rewrite !length_fmap in Hshape. }
  cbn [normalize_loop]. unfold resolve_index. rewrite Hlen.
  rewrite !bool_decide_eq_false_2 by lia. done.
Qed.

End NormalizeMore.

Lemma normalize_nothing_above_cutoff_witness :
  gtb (nan : float) 1%float = false.
Proof.
  apply (normalize_nothing_above_cutoff (F:=float) [0] (2, 1, 1)%nat
           [[2%float]] [[2%float]] 1%float
           [[[2%float]]; [[3%float]]] [[[nan]]; [[1%float]]])
    with (i := 0%nat) (r := 0%nat) (k := 0%nat); reflexivity.
Defined.

Lemma normalize_clamps_outside_partition_witness :
  cell [[[1%Q]]; [[1%Q]]] 1 0 0 = clamp 1%Q <$> cell [[[4%Q]]; [[4%Q]]] 1 0 0.
Proof.
  apply (normalize_clamps_outside_partition (F:=Q) [0] (2, 1, 1)%nat
           [[2%Q]] [[0%Q]] 1%Q [[[4%Q]]; [[4%Q]]] [[[1%Q]]; [[1%Q]]] 1).
  - reflexivity.
  - intros m ->%list_elem_of_singleton. by vm_compute.
Defined.

Lemma normalize_index_out_of_range_witness :
  normalize ([0] ++ 5 :: [1], (2, 1, 1)%nat, ([[2%Q]], [[0%Q]], Some 1%Q))
    [[[4%Q]]; [[4%Q]]]
  = ([[[2%Q]]; [[4%Q]]], Raised IndexError).
Proof.
  apply (normalize_index_out_of_range (F:=Q) [0] [1] 5 (2, 1, 1)%nat
           [[2%Q]] [[0%Q]] (Some 1%Q) [[[4%Q]]; [[4%Q]]] [[[2%Q]]; [[4%Q]]]).
  - reflexivity.
  - simpl. lia.
Defined.

(** ** Further properties of [optimize_center] *)

Section Runs.
Context {F : Type} `{Scalar F} {G : Type}.
Variable Gridrec_init : volume F -> Z -> Z -> Gridrec F G.
Variable reconstruct :
  Gridrec F G -> volume F -> list F -> F -> Z -> outcome (Gridrec F G).
Variable gaussian_filter : volume F -> F -> volume F.
Variable histogram : volume F -> nat -> F * F -> outcome (list Z).
Variable log2 : F -> F.
Variable minimize : F -> F -> minimizer F.

(** One evaluation either returns and leaves the three events of its calls,
    or raises in the middle of them. *)
Lemma costFunc_events (center : F) (data : volume F) (theta : list F)
    (slice_no : Z) (hist_min hist_max : F) (mask : bool) (ratio : F)
    (w : world F G) :
  match _costFunc reconstruct gaussian_filter histogram log2
          center data theta slice_no hist_min hist_max mask ratio w with
  | (w1, Returned score) =>
    trace w1 = trace w ++ [Trying center; Reconstruct (float32 center) slice_no;
                           Histogram 64 hist_min hist_max]
  | (w1, Raised e) =>
    exists t, trace w1 = trace w ++ t
              /\ broken_evaluation slice_no hist_min hist_max center t
  end.
Proof.
  rewrite costFunc_unfold. cbv zeta.
  destruct (reconstruct _ _ _ _ _) as [r1|e]; [|by eexists; split; [done|left]].
  destruct (masked data mask ratio r1) as [r2|e]; [|by eexists; split; [done|left]].
  destruct (histogram _ _ _) as [counts|e]; simpl; rewrite <- app_assoc; [done|].
  eexists. split; [done|]. by right.
Qed.

Lemma run_minimizer_events (data : volume F) (theta : list F) (slice_no : Z)
    (hist_min hist_max : F) (mask : bool) (ratio : F) (m : minimizer F)
    (w : world F G) :
  match run_minimizer
          (λ center, _costFunc reconstruct gaussian_filter histogram log2
                       center data theta slice_no hist_min hist_max mask ratio)
          m w with
  | (w1, Returned res) =>
    exists evals : list (F * F),
      trace w1 = trace w ++ concat (evaluation slice_no hist_min hist_max <$> evals)
  | (w1, Raised e) =>
    exists (evals : list (F * F)) (x : F) (t : list (event F)),
      trace w1 = trace w ++ concat (evaluation slice_no hist_min hist_max <$> evals) ++ t
      /\ broken_evaluation slice_no hist_min hist_max x t
  end.
Proof.
  revert w. induction m as [res|x k IH]; intros w; simpl.
  - exists []. simpl. by rewrite app_nil_r.
  - unfold bind at 1.
    pose proof (costFunc_events x data theta slice_no hist_min hist_max mask ratio w)
      as Hcost.
    destruct (_costFunc _ _ _ _ _ _ _ _ _ _ _ _ _) as [w1 [s|e]].
    + unfold bind at 1. unfold emit at 1. simpl.
      specialize (IH s {| recon := recon w1; trace := trace w1 ++ [Objective x s] |}).
      destruct (run_minimizer _ _ _) as [w2 [res|e]]; simpl in IH.
      * destruct IH as (evals & ->). exists ((x, s) :: evals).
        rewrite Hcost. simpl. by rewrite <- !app_assoc.
      * destruct IH as (evals & x' & t & -> & Ht). exists ((x, s) :: evals), x', t.
        split; [|done]. rewrite Hcost. simpl. by rewrite <- !app_assoc.
    + destruct Hcost as (t & Ht & Hbroken). exists [], x, t. by split.
Qed.

(** X8.  A run that returns [x] has done exactly this, in this order: the
    initial reconstruction at [center_init], then for each point the
    minimizer asked for one print, one reconstruction at the point cast to
    float32, one 64-bin histogram over the range fixed at the start and one
    score handed back, and at the end the print of [x]. *)
Theorem optimize_center_trace_returned (data : volume F) (theta : list F)
    (slice_no : Z) (center_init tol : F) (mask : bool) (ratio : F)
    (t : list (event F)) (x : F) :
  optimize_center Gridrec_init reconstruct gaussian_filter histogram log2 minimize
    data theta slice_no center_init tol mask ratio = (t, Returned x) ->
  exists (hist_min hist_max : F) (evals : list (F * F)),
    t = Reconstruct center_init slice_no
        :: concat (evaluation slice_no hist_min hist_max <$> evals)
        ++ [Calculated x].
Proof.
  rewrite optimize_center_unfold, initialize_unfold. cbv zeta. simpl.
  destruct (reconstruct _ _ _ _ _) as [r1|e]; [|done].
  destruct (masked data mask ratio r1) as [r2|e]; [|done].
  destruct (hist_limits (data_recon r2)) as [[hist_min hist_max]|e]; [|done].
  simpl.
  pose proof (run_minimizer_events data theta slice_no hist_min hist_max mask ratio
                (minimize center_init tol)
                {| recon := r2; trace := [Reconstruct center_init slice_no] |}) as Hrun.
  destruct (run_minimizer _ _ _) as [w2 [res|e]]; [|done].
  destruct Hrun as (evals & Ht). intros [= <- <-].
  exists hist_min, hist_max, evals. by rewrite Ht.
Qed.

(** X9.  A run that raises has stopped right after the initial
    reconstruction, or in the middle of an evaluation, after its
    reconstructor call or after its histogram call: the failing candidate
    gets no score, the search is not continued and no result is printed. *)
Theorem optimize_center_trace_raised (data : volume F) (theta : list F)
    (slice_no : Z) (center_init tol : F) (mask : bool) (ratio : F)
    (t : list (event F)) (e : exn) :
  optimize_center Gridrec_init reconstruct gaussian_filter histogram log2 minimize
    data theta slice_no center_init tol mask ratio = (t, Raised e) ->
  t = [Reconstruct center_init slice_no]
  \/ exists (hist_min hist_max : F) (evals : list (F * F)) (x : F)
            (last : list (event F)),
       t = Reconstruct center_init slice_no
           :: concat (evaluation slice_no hist_min hist_max <$> evals) ++ last
       /\ broken_evaluation slice_no hist_min hist_max x last.
Proof.
  rewrite optimize_center_unfold, initialize_unfold. cbv zeta. simpl.
  destruct (reconstruct _ _ _ _ _) as [r1|e1]; [|by intros [= <- _]; left].
  destruct (masked data mask ratio r1) as [r2|e1]; [|by intros [= <- _]; left].
  destruct (hist_limits (data_recon r2)) as [[hist_min hist_max]|e1];
    [|by intros [= <- _]; left].
  simpl.
  pose proof (run_minimizer_events data theta slice_no hist_min hist_max mask ratio
                (minimize center_init tol)
                {| recon := r2; trace := [Reconstruct center_init slice_no] |}) as Hrun.
  destruct (run_minimizer _ _ _) as [w2 [res|e2]]; [done|].
  destruct Hrun as (evals & x & last & Ht & Hlast). intros [= <- _].
  right. exists hist_min, hist_max, evals, x, last. by rewrite Ht.
Qed.

(** X10.  A reconstructor that hands back an array without any pixel makes
    [optimize_center] (mask off) raise [ValueError] at [np.min], after the
    one reconstruction and before any search; with the mask on, an array
    without any image makes the mask assignment raise [IndexError]. *)
Theorem optimize_center_empty_reconstruction (data : volume F) (theta : list F)
    (slice_no : Z) (center_init tol : F) (ratio : F) (r1 : Gridrec F G) :
  reconstruct (Gridrec_init data 20 10) data theta center_init slice_no
    = Returned r1 ->
  (concat (concat (data_recon r1)) = [] ->
   optimize_center Gridrec_init reconstruct gaussian_filter histogram log2 minimize
     data theta slice_no center_init tol false ratio
   = ([Reconstruct center_init slice_no], Raised ValueError))
  /\ (data_recon r1 = [] ->
      optimize_center Gridrec_init reconstruct gaussian_filter histogram log2 minimize
        data theta slice_no center_init tol true ratio
      = ([Reconstruct center_init slice_no], Raised IndexError)).
Proof.
  intros Hrec. split; intros Hempty;
    rewrite optimize_center_unfold, initialize_unfold; cbv zeta; simpl; rewrite Hrec.
  - simpl. unfold hist_limits, np_min. by rewrite Hempty.
  - unfold masked. by rewrite Hempty.
Qed.

End Runs.

Lemma optimize_center_trace_returned_witness :
  exists (hist_min hist_max : Q) (evals : list (Q * Q)),
    [Reconstruct 7%Q 0;
     Trying 7%Q; Reconstruct 7%Q 0; Histogram 64 0%Q 20%Q;
     Objective 7%Q (281250000579 # 250000000000)%Q;
     Trying 8%Q; Reconstruct 8%Q 0; Histogram 64 0%Q 20%Q;
     Objective 8%Q (625000001141 # 500000000000)%Q;
     Calculated 7%Q]
    = Reconstruct 7%Q 0
      :: concat (evaluation 0 hist_min hist_max <$> evals) ++ [Calculated 7%Q].
Proof.
  apply (optimize_center_trace_returned Phantom.Gridrec_init Phantom.reconstruct
           Phantom.gaussian_filter Phantom.histogram Phantom.log2 Phantom.minimize
           Phantom.data [] 0 7%Q (1 # 10)%Q true (1 # 2)%Q).
  vm_compute. reflexivity.
Defined.

Lemma optimize_center_trace_raised_witness :
  [Reconstruct 0%Q 0;
   Trying 0%Q; Reconstruct 0%Q 0; Histogram 64 (-8)%Q 20%Q;
   Objective 0%Q (437500000259 # 125000000000)%Q;
   Trying (-1)%Q; Reconstruct (-1)%Q 0]
  = [Reconstruct 0%Q 0]
  \/ exists (hist_min hist_max : Q) (evals : list (Q * Q)) (x : Q)
            (last : list (event Q)),
       [Reconstruct 0%Q 0;
        Trying 0%Q; Reconstruct 0%Q 0; Histogram 64 (-8)%Q 20%Q;
        Objective 0%Q (437500000259 # 125000000000)%Q;
        Trying (-1)%Q; Reconstruct (-1)%Q 0]
       = Reconstruct 0%Q 0
         :: concat (evaluation 0 hist_min hist_max <$> evals) ++ last
       /\ broken_evaluation 0 hist_min hist_max x last.
Proof.
  apply (optimize_center_trace_raised Phantom.Gridrec_init Phantom.reconstruct
           Phantom.gaussian_filter Phantom.histogram Phantom.log2 Phantom.descend
           Phantom.data [] 0 0%Q (1 # 10)%Q false (1 # 2)%Q _ ExternalError).
  vm_compute. reflexivity.
Defined.

Lemma optimize_center_empty_reconstruction_witness :
  optimize_center Phantom.Gridrec_init Phantom.blank Phantom.gaussian_filter
    Phantom.histogram Phantom.log2 Phantom.minimize
    Phantom.data [] 0 7%Q (1 # 10)%Q false (1 # 2)%Q
  = ([Reconstruct 7%Q 0], Raised ValueError)
  /\ optimize_center Phantom.Gridrec_init Phantom.blank Phantom.gaussian_filter
       Phantom.histogram Phantom.log2 Phantom.minimize
       Phantom.data [] 0 7%Q (1 # 10)%Q true (1 # 2)%Q
     = ([Reconstruct 7%Q 0], Raised IndexError).
Proof.
  pose proof (optimize_center_empty_reconstruction Phantom.Gridrec_init Phantom.blank
                Phantom.gaussian_filter Phantom.histogram Phantom.log2 Phantom.minimize
                Phantom.data [] 0 7%Q (1 # 10)%Q (1 # 2)%Q
                {| gridrec_state := tt; data_recon := [] |} eq_refl) as [Hoff Hon].
  split; [apply Hoff|apply Hon]; reflexivity.
Defined.

(** *** The mask *)

Section MaskMore.
Context {F : Type} `{Scalar F} {G : Type}.
Variable Gridrec_init : volume F -> Z -> Z -> Gridrec F G.
Variable reconstruct :
  Gridrec F G -> volume F -> list F -> F -> Z -> outcome (Gridrec F G).
Variable gaussian_filter : volume F -> F -> volume F.
Variable histogram : volume F -> nat -> F * F -> outcome (list Z).
Variable log2 : F -> F.
Variable minimize : F -> F -> minimizer F.

(** X11.  The mask is a square whose edge is [data.shape[2]] rounded down to
    an even number: the integer division [data.shape[2]/2] drops one pixel
    of an odd width. *)
Theorem circular_mask_edge (data : volume F) (ratio : F) :
  let n := shape_2 data in
  shape (circular_mask data ratio)
  = replicate (n - n mod 2)%nat (n - n mod 2)%nat.
Proof.
  intros n. unfold shape, circular_mask. rewrite <- list_fmap_compose.
  assert (Hlen : length (seqZ (- mask_radius data) (mask_radius data - - mask_radius data))
                 = (n - n mod 2)%nat).
  { rewrite length_seqZ. unfold mask_radius. subst n.
    generalize (shape_2 data). intros n.
    pose proof (Z.div_mod (Z.of_nat n) 2 ltac:(lia)) as Hdiv.
    pose proof (Z.mod_pos_bound (Z.of_nat n) 2 ltac:(lia)) as Hmod.
    pose proof (Nat2Z.inj_mod n 2) as Hnat. change (Z.of_nat 2) with 2 in Hnat.
    lia. }
  rewrite <- Hlen at 1. apply const_fmap. intros i y _. unfold compose.
  by rewrite length_fmap.
Qed.

(** X12.  The ratio enters the mask through [ratio * ratio] only: where the
    square of [-ratio] is the square of [ratio], a call with the negated
    ratio prints, evaluates and returns what the call with [ratio] does. *)
Theorem optimize_center_ratio_sign (data : volume F) (theta : list F)
    (slice_no : Z) (center_init tol : F) (mask : bool) (ratio : F) :
  mul (neg ratio) (neg ratio) = mul ratio ratio ->
  optimize_center Gridrec_init reconstruct gaussian_filter histogram log2 minimize
    data theta slice_no center_init tol mask (neg ratio)
  = optimize_center Gridrec_init reconstruct gaussian_filter histogram log2 minimize
      data theta slice_no center_init tol mask ratio.
Proof.
  intros Hsq.
  assert (Hmask : circular_mask data (neg ratio) = circular_mask data ratio).
  { unfold circular_mask, outside, mask_threshold. by rewrite Hsq. }
  assert (Hmasked : forall r : Gridrec F G,
    masked data mask (neg ratio) r = masked data mask ratio r).
  { intros r. unfold masked. by rewrite Hmask. }
  assert (Hcost : forall (center hist_min hist_max : F) (w : world F G),
    _costFunc reconstruct gaussian_filter histogram log2
      center data theta slice_no hist_min hist_max mask (neg ratio) w
    = _costFunc reconstruct gaussian_filter histogram log2
        center data theta slice_no hist_min hist_max mask ratio w).
  { intros center hist_min hist_max w. rewrite !costFunc_unfold. cbv zeta.
    destruct (reconstruct _ _ _ _ _) as [r1|e]; [|done]. by rewrite Hmasked. }
  rewrite !optimize_center_unfold, !initialize_unfold. cbv zeta.
  destruct (reconstruct _ _ _ _ _) as [r1|e]; [|done]. rewrite Hmasked.
  destruct (masked data mask ratio r1) as [r2|e]; [|done].
  destruct (hist_limits (data_recon r2)) as [range|e]; [|done].
  by rewrite (run_minimizer_ext _ _ _ _ (λ x w', Hcost x range.1 range.2 w')).
Qed.

End MaskMore.

Lemma optimize_center_ratio_sign_witness :
  optimize_center Phantom.Gridrec_init Phantom.reconstruct Phantom.gaussian_filter
    Phantom.histogram Phantom.log2 Phantom.minimize
    Phantom.data [] 0 7%Q (1 # 10)%Q true (neg (1 # 2)%Q)
  = optimize_center Phantom.Gridrec_init Phantom.reconstruct Phantom.gaussian_filter
      Phantom.histogram Phantom.log2 Phantom.minimize
      Phantom.data [] 0 7%Q (1 # 10)%Q true (1 # 2)%Q.
Proof.
  apply (optimize_center_ratio_sign Phantom.Gridrec_init Phantom.reconstruct
           Phantom.gaussian_filter Phantom.histogram Phantom.log2 Phantom.minimize
           Phantom.data [] 0 7%Q (1 # 10)%Q true (1 # 2)%Q).
  reflexivity.
Defined.

(** *** Exact arithmetic *)

Lemma foldl_fmin_le (x : Q) (xs : list Q) :
  (foldl fmin x xs <= x)%Q /\ forall y : Q, y ∈ xs -> (foldl fmin x xs <= y)%Q.
Proof.
  revert x. induction xs as [|a xs IH]; intros x; cbn [foldl].
  - split; [apply Qle_refl|]. by intros y ?%elem_of_nil.
  - change (fmin x a) with (if Qle_bool x a then x else a).
    assert (Hxa : ((if Qle_bool x a then x else a) <= x
                   /\ (if Qle_bool x a then x else a) <= a)%Q).
    { destruct (Qle_bool x a) eqn:Hle.
      - apply Qle_bool_iff in Hle. split; [apply Qle_refl|done].
      - assert (~ (x <= a)%Q) by (rewrite <- Qle_bool_iff; congruence).
        split; [lra|apply Qle_refl]. }
    revert Hxa. generalize (if Qle_bool x a then x else a). intros m [Hmx Hma].
    destruct (IH m) as [Hhead Htail].
    split; [lra|]. intros y [->|Hy]%elem_of_cons; [lra|by apply Htail].
Qed.

Lemma foldl_fmax_ge (x : Q) (xs : list Q) :
  (x <= foldl fmax x xs)%Q /\ forall y : Q, y ∈ xs -> (y <= foldl fmax x xs)%Q.
Proof.
  revert x. induction xs as [|a xs IH]; intros x; cbn [foldl].
  - split; [apply Qle_refl|]. by intros y ?%elem_of_nil.
  - change (fmax x a) with (if Qle_bool x a then a else x).
    assert (Hxa : (x <= (if Qle_bool x a then a else x)
                   /\ a <= (if Qle_bool x a then a else x))%Q).
    { destruct (Qle_bool x a) eqn:Hle.
      - apply Qle_bool_iff in Hle. split; [done|apply Qle_refl].
      - assert (~ (x <= a)%Q) by (rewrite <- Qle_bool_iff; congruence).
        split; [apply Qle_refl|lra]. }
    revert Hxa. generalize (if Qle_bool x a then a else x). intros m [Hmx Hma].
    destruct (IH m) as [Hhead Htail].
    split; [lra|]. intros y [->|Hy]%elem_of_cons; [lra|by apply Htail].
Qed.

Lemma widen_min_le (mn : Q) : (widen_min mn <= mn)%Q.
Proof.
  unfold widen_min. simpl. destruct (Qle_bool 0 mn) eqn:Hle; simpl.
  - apply Qle_bool_iff in Hle. rewrite Qred_correct. lra.
  - assert (~ (0 <= mn)%Q) by (rewrite <- Qle_bool_iff; congruence).
    rewrite Qred_correct. lra.
Qed.

Lemma widen_max_ge (mx : Q) : (mx <= widen_max mx)%Q.
Proof.
  unfold widen_max. simpl. destruct (Qle_bool 0 mx) eqn:Hle; simpl.
  - apply Qle_bool_iff in Hle. rewrite Qred_correct. lra.
  - assert (~ (0 <= mx)%Q) by (rewrite <- Qle_bool_iff; congruence).
    rewrite Qred_correct. lra.
Qed.

(** X13.  In exact arithmetic the range [[hist_min, hist_max]] contains every
    value of the reconstruction it was computed from: none of its pixels
    falls outside the histogram. *)
Theorem hist_limits_contain_reconstruction (a : volume Q) (hist_min hist_max : Q) :
  hist_limits a = Returned (hist_min, hist_max) ->
  forall v : Q, v ∈ concat (concat a) -> (hist_min <= v <= hist_max)%Q.
Proof.
  unfold hist_limits, np_min, np_max.
  destruct (concat (concat a)) as [|x xs]; [done|].
  intros [= <- <-] v Hv.
  pose proof (foldl_fmin_le x xs) as [Hmin_x Hmin].
  pose proof (foldl_fmax_ge x xs) as [Hmax_x Hmax].
  pose proof (widen_min_le (foldl fmin x xs)) as Hlo.
  pose proof (widen_max_ge (foldl fmax x xs)) as Hhi.
  assert (Hv' : (foldl fmin x xs <= v /\ v <= foldl fmax x xs)%Q).
  { apply elem_of_cons in Hv as [->|Hv]; [done|]. split; [by apply Hmin|by apply Hmax]. }
  destruct Hv' as [Hv1 Hv2]. split; eapply Qle_trans; eauto.
Qed.

Lemma hist_limits_contain_reconstruction_witness :
  ((-8) <= 10 <= 20)%Q.
Proof.
  apply (hist_limits_contain_reconstruction [Phantom.image 7%Q] (-8)%Q 20%Q).
  - reflexivity.
  - vm_compute. do 9 apply list_elem_of_further. apply list_elem_of_here.
Defined.

Lemma mask_threshold_nonneg (ratio : Q) (rad : Z) :
  (0 <= mask_threshold ratio rad)%Q.
Proof.
  unfold mask_threshold. simpl. rewrite !Qred_correct.
  assert (Hsq : (ratio * ratio * inject_Z rad * inject_Z rad
                 == (ratio * inject_Z rad) * (ratio * inject_Z rad))%Q) by ring.
  rewrite Hsq. generalize (ratio * inject_Z rad)%Q. intros t. nra.
Qed.

(** X14.  In exact arithmetic the mask never zeroes the pixel at the centre
    [(rad, rad)], whatever the ratio is (zero and negative ratios included):
    a masked image keeps at least this pixel. *)
Theorem circular_mask_keeps_centre (data : volume Q) (ratio : Q)
    (a a' : volume Q) (v : Q) :
  mask_assign (circular_mask data ratio) a = Returned a' ->
  let c := Z.to_nat (mask_radius data) in
  cell a 0 c c = Some v -> cell a' 0 c c = Some v.
Proof.
  intros Hmask c Hv. apply mask_assign_spec in Hmask.
  destruct Hmask as [[_ ->]|[_ Hmask]]; [done|].
  destruct Hmask as (img & img' & rest & -> & -> & _ & _ & _ & Hpixels).
  change (pixel img c c = Some v) in Hv. change (pixel img' c c = Some v).
  rewrite (Hpixels c c v Hv). f_equal.
  pose proof (mask_radius_nonneg data) as Hrad.
  replace (Z.of_nat c - mask_radius data) with 0 by (unfold c; lia).
  assert (Hin : outside ratio (mask_radius data) 0 0 = false).
  { pose proof (mask_threshold_nonneg ratio (mask_radius data)) as Hthr.
    apply Qle_bool_iff in Hthr. unfold outside.
    change (negb (Qle_bool 0 (mask_threshold ratio (mask_radius data))) = false).
    by rewrite Hthr. }
  by rewrite Hin.
Qed.

Lemma circular_mask_keeps_centre_witness :
  cell (Phantom.masked_image 7%Q (Some 0%Q)) 0 2 2 = Some 9%Q.
Proof.
  apply (circular_mask_keeps_centre Phantom.data 0%Q [Phantom.image 7%Q]
           (Phantom.masked_image 7%Q (Some 0%Q)) 9%Q); reflexivity.
Defined.

(** Two 2-D arrays of one shape with the same pixels are equal. *)
Lemma frame_eq {A} (a b : list (list A)) :
  shape a = shape b -> (forall i j : nat, pixel a i j = pixel b i j) -> a = b.
Proof.
  intros Hshape Hpix. apply list_eq. intros i.
  assert (Hi : shape a !! i = shape b !! i) by (by rewrite Hshape).
  unfold shape in Hi. rewrite !list_lookup_fmap in Hi.
  destruct (a !! i) as [ra|] eqn:Ha, (b !! i) as [rb|] eqn:Hb; try done.
  f_equal. apply list_eq. intros j. specialize (Hpix i j).
  unfold pixel in Hpix. by rewrite Ha, Hb in Hpix.
Qed.

Lemma inside_wide_circle (ratio : Q) (rad x y : Z) :
  (2 <= ratio * ratio)%Q -> - rad <= x < rad -> - rad <= y < rad ->
  outside ratio rad x y = false.
Proof.
  intros Hratio Hx Hy. unfold outside.
  change (negb (Qle_bool (inject_Z (x * x + y * y)) (mask_threshold ratio rad)) = false).
  apply negb_false_iff, Qle_bool_iff.
  unfold mask_threshold. simpl. rewrite !Qred_correct.
  assert (Hz : x * x + y * y <= 2 * (rad * rad)) by nia.
  rewrite Zle_Qle in Hz. rewrite !inject_Z_mult in Hz.
  assert (Hr : (0 <= inject_Z rad * inject_Z rad)%Q).
  { rewrite <- inject_Z_mult. change 0%Q with (inject_Z 0). rewrite <- Zle_Qle. nia. }
  eapply Qle_trans; [exact Hz|].
  setoid_replace (ratio * ratio * inject_Z rad * inject_Z rad)%Q
    with ((ratio * ratio) * (inject_Z rad * inject_Z rad))%Q
    using relation Qeq by ring.
  change (inject_Z 2) with 2%Q.
  apply Qmult_le_compat_r; done.
Qed.

(** X15.  In exact arithmetic a ratio with [ratio * ratio >= 2] (the circle
    then passes through or beyond the corners) masks nothing: the assignment
    leaves the reconstruction as it is. *)
Theorem circular_mask_wide_ratio (data : volume Q) (ratio : Q) (a a' : volume Q) :
  (2 <= ratio * ratio)%Q ->
  mask_assign (circular_mask data ratio) a = Returned a' ->
  a' = a.
Proof.
  intros Hratio Hmask. apply mask_assign_spec in Hmask.
  destruct Hmask as [[_ ->]|[_ Hmask]]; [done|].
  destruct Hmask as (img & img' & rest & -> & -> & Hshape & Hlen & Hrows & Hpixels).
  f_equal. apply frame_eq; [done|]. intros i j.
  destruct (pixel img i j) as [v|] eqn:Hv.
  - rewrite (Hpixels i j v Hv). f_equal.
    rewrite inside_wide_circle; [done|done| |].
    + unfold pixel in Hv. destruct (img !! i) as [row|] eqn:Hrow; [|done].
      simpl in Hv. apply lookup_lt_Some in Hv.
      eapply Forall_lookup_1 in Hrows; [|done]. simpl in Hrows. lia.
    + unfold pixel in Hv. destruct (img !! i) as [row|] eqn:Hrow; [|done].
      apply lookup_lt_Some in Hrow. lia.
  - destruct (pixel img' i j) as [v'|] eqn:Hv'; [|done].
    destruct (pixel_same_shape img' img i j) as [u Hu]; [done|by exists v'|].
    congruence.
Qed.

Lemma circular_mask_wide_ratio_witness :
  Phantom.masked_image 7%Q (Some (3 # 2)%Q) = [Phantom.image 7%Q].
Proof.
  apply (circular_mask_wide_ratio Phantom.data (3 # 2)%Q).
  - vm_compute. discriminate.
  - reflexivity.
Defined.

(** *** What the search hands back *)


Section Best.
Context {F : Type} `{Scalar F} {G : Type}.
Variable Gridrec_init : volume F -> Z -> Z -> Gridrec F G.
Variable reconstruct :
  Gridrec F G -> volume F -> list F -> F -> Z -> outcome (Gridrec F G).
Variable gaussian_filter : volume F -> F -> volume F.
Variable histogram : volume F -> nat -> F * F -> outcome (list Z).
Variable log2 : F -> F.
Variable minimize : F -> F -> minimizer F.



End Best.



